(** * Steady-state PEM fuel-cell model

    A shallow embedding of [fuel_Cell_simulator.py]: the parameter container
    [FuelCellParameters], the four physics equations and the sweep
    [simulate_fuel_cell], followed by the properties of the specification
    that are settled on them.

    Numbers.  Python floats and numpy float64 values are modelled as real
    numbers extended with the IEEE special values ([PInf], [NInf], [NaN]):
    arithmetic on finite values is exact (rounding and overflow are not
    modelled, zero is unsigned), arithmetic on special values follows
    IEEE 754 as numpy implements it (a warning, never an exception).  A
    Python scalar operation that raises ([/] by zero) is modelled in the
    [outcome] monad.  The fields of a parameter set are finite floats: a
    Python integer beyond the range of a float, which would raise
    [OverflowError] at its first float operation, is outside the model.

    Properties that depend on rounding (finiteness, strict order, the
    effect of a guard) are stated under explicit bounds on the
    parameters, inside which binary64 neither overflows nor absorbs the
    quantity at stake; module [B64] evaluates the clamp of the
    concentration loss in binary64 itself. *)

From Stdlib Require Import Reals Lra Lia List String.
From Stdlib Require Floats.
Import ListNotations.
Open Scope R_scope.

(** The source names the gas constant [R]; the type of real numbers is
    called [real] throughout so that the field can keep its name. *)
Abbreviation real := R.

(* ================================================================= *)
(** ** Outcomes of Python calls *)

Inductive pyexn : Type :=
| ZeroDivisionError
| TypeError.

Inductive outcome (A : Type) : Type :=
| Ret (a : A)
| Raise (e : pyexn).

Arguments Ret {A} a.
Arguments Raise {A} e.

Definition bind {A B : Type} (m : outcome A) (k : A -> outcome B) : outcome B :=
  match m with
  | Ret a => k a
  | Raise e => Raise e
  end.

Notation "x <- m ;; k" := (bind m (fun x => k))
  (at level 61, m at next level, right associativity).

(** Elementwise application of a fallible scalar function over an array:
    the first failure aborts the whole evaluation. *)
Fixpoint mapM {A B : Type} (f : A -> outcome B) (l : list A) : outcome (list B) :=
  match l with
  | [] => Ret []
  | a :: l' => b <- f a ;; bs <- mapM f l' ;; Ret (b :: bs)
  end.

(* ================================================================= *)
(** ** Floating-point values *)

Module Num.

(** A value is a finite real, one of the IEEE special values, or a
    complex number, which Python produces for a negative base raised to a
    fractional power.  [Cplx] records only that the value is of complex
    type: real and imaginary parts are not tracked, and every arithmetic
    operation with a complex operand yields a complex result. *)
Inductive num : Type :=
| Fin (x : real)
| PInf
| NInf
| NaN
| Cplx.

Inductive sign : Type := Neg | Zero | Pos.

Definition sgn (x : real) : sign :=
  match total_order_T x 0 with
  | inleft (left _) => Neg
  | inleft (right _) => Zero
  | inright _ => Pos
  end.

Definition inf_of (s : sign) : num :=
  match s with
  | Pos => PInf
  | Neg => NInf
  | Zero => NaN
  end.

Definition is_finite (a : num) : bool :=
  match a with
  | Fin _ => true
  | _ => false
  end.

(** Unary minus. *)
Definition neg (a : num) : num :=
  match a with
  | Fin x => Fin (- x)
  | PInf => NInf
  | NInf => PInf
  | NaN => NaN
  | Cplx => Cplx
  end.

(** [a + b]. *)
Definition add (a b : num) : num :=
  match a, b with
  | Cplx, _ | _, Cplx => Cplx
  | NaN, _ | _, NaN => NaN
  | Fin x, Fin y => Fin (x + y)
  | PInf, NInf | NInf, PInf => NaN
  | PInf, _ | _, PInf => PInf
  | NInf, _ | _, NInf => NInf
  end.

(** [a - b]. *)
Definition sub (a b : num) : num := add a (neg b).

(** [a * b]. *)
Definition mul (a b : num) : num :=
  match a, b with
  | Cplx, _ | _, Cplx => Cplx
  | NaN, _ | _, NaN => NaN
  | Fin x, Fin y => Fin (x * y)
  | Fin x, PInf | PInf, Fin x => inf_of (sgn x)
  | Fin x, NInf | NInf, Fin x => inf_of (sgn (- x))
  | PInf, PInf | NInf, NInf => PInf
  | PInf, NInf | NInf, PInf => NInf
  end.

(** numpy's [a / b]: a zero divisor gives an infinity or a NaN. *)
Definition div (a b : num) : num :=
  match a, b with
  | Cplx, _ | _, Cplx => Cplx
  | NaN, _ | _, NaN => NaN
  | Fin x, Fin y =>
      match sgn y with
      | Zero => inf_of (sgn x)
      | _ => Fin (x / y)
      end
  | Fin _, (PInf | NInf) => Fin 0
  | PInf, Fin y => match sgn y with Neg => NInf | _ => PInf end
  | NInf, Fin y => match sgn y with Neg => PInf | _ => NInf end
  | (PInf | NInf), (PInf | NInf) => NaN
  end.

(** [np.log]: minus infinity at zero and NaN below it. *)
Definition log (a : num) : num :=
  match a with
  | Fin x =>
      match sgn x with
      | Pos => Fin (ln x)
      | Zero => NInf
      | Neg => NaN
      end
  | PInf => PInf
  | NInf => NaN
  | NaN => NaN
  | Cplx => Cplx
  end.

(** [np.minimum] and [np.maximum]: a NaN operand is propagated. *)
Definition minimum (a b : num) : num :=
  match a, b with
  | Cplx, _ | _, Cplx => Cplx
  | NaN, _ | _, NaN => NaN
  | Fin x, Fin y => Fin (Rmin x y)
  | NInf, _ | _, NInf => NInf
  | PInf, c | c, PInf => c
  end.

Definition maximum (a b : num) : num :=
  match a, b with
  | Cplx, _ | _, Cplx => Cplx
  | NaN, _ | _, NaN => NaN
  | Fin x, Fin y => Fin (Rmax x y)
  | PInf, _ | _, PInf => PInf
  | NInf, c | c, NInf => c
  end.

(** Python's [x ** 0.5] on a float [x]: the real power [exp (ln x / 2)]
    for a positive base, [0.0] at zero and a complex number for a
    negative base. *)
Definition pow_half (x : real) : num :=
  match sgn x with
  | Pos => Fin (Rpower x (/ 2))
  | Zero => Fin 0
  | Neg => Cplx
  end.

End Num.
Import Num.

(** Python's scalar [x / y]. *)
Definition py_div (x y : real) : outcome real :=
  match sgn y with
  | Zero => Raise ZeroDivisionError
  | _ => Ret (x / y)
  end.

(** [np.linspace start stop num]: [num] samples [start + k * step] with
    [step = (stop - start) / (num - 1)], the last one set to [stop]. *)
Definition np_linspace (start stop : real) (n : nat) : list real :=
  let step := (stop - start) / INR (n - 1) in
  match n with
  | O => []
  | 1%nat => [start]
  | _ => map (fun k => INR k * step + start) (seq 0 (n - 1)) ++ [stop]
  end.

(** Elementwise binary operation on two arrays of the same shape. *)
Fixpoint zip_with {A B C : Type} (f : A -> B -> C) (xs : list A) (ys : list B)
  : list C :=
  match xs, ys with
  | x :: xs', y :: ys' => f x y :: zip_with f xs' ys'
  | _, _ => []
  end.

(* ================================================================= *)
(** ** 1. Physical constants and parameters *)

Record FuelCellParameters : Type := mkFuelCellParameters {
  R : real;                (* ideal gas constant *)
  F : real;                (* Faraday's constant *)
  T : real;                (* temperature in Kelvin *)
  P_H2 : real;             (* partial pressure of hydrogen *)
  P_O2 : real;             (* partial pressure of oxygen *)
  alpha : real;            (* charge transfer coefficient *)
  area_resistance : real;  (* membrane resistance *)
  i_limit : real           (* limiting current density *)
}.

(** [__init__(self, T_kelvin=353, P_H2_atm=1.0, P_O2_atm=1.0)]. *)
Definition init (T_kelvin P_H2_atm P_O2_atm : real) : FuelCellParameters :=
  {| R := 8.314;
     F := 96485;
     T := T_kelvin;
     P_H2 := P_H2_atm;
     P_O2 := P_O2_atm;
     alpha := 0.5;
     area_resistance := 0.2;
     i_limit := 1.8 |}.

(** The two universal constants, the same in every parameter set. *)
Definition universal_constants (p : FuelCellParameters) : Prop :=
  R p = 8.314 /\ F p = 96485.

(** *** Calling the constructor

    A call [FuelCellParameters(a1, ..., an, k1=v1, ..., km=vm)] binds the
    positional arguments to the parameters in order and the keyword
    arguments by name; an argument that matches no parameter, or a
    parameter given twice, raises [TypeError].  [kwargs] stands for the
    keyword dictionary of the call. *)

Definition init_parameters : list (string * real) :=
  [("T_kelvin"%string, 353); ("P_H2_atm"%string, 1.0); ("P_O2_atm"%string, 1.0)].

Fixpoint lookup (k : string) (kwargs : list (string * real)) : option real :=
  match kwargs with
  | [] => None
  | (k', v) :: rest => if String.eqb k k' then Some v else lookup k rest
  end.

Definition is_parameter (k : string) : bool :=
  existsb (fun kd => String.eqb k (fst kd)) init_parameters.

Definition given_positionally (n : nat) (k : string) : bool :=
  existsb (fun kd => String.eqb k (fst kd)) (firstn n init_parameters).

Definition bind_argument (args : list real) (kwargs : list (string * real))
  (idx : nat) (kd : string * real) : real :=
  match nth_error args idx with
  | Some v => v
  | None =>
      match lookup (fst kd) kwargs with
      | Some v => v
      | None => snd kd
      end
  end.

Definition new_FuelCellParameters (args : list real) (kwargs : list (string * real))
  : outcome FuelCellParameters :=
  if (List.length init_parameters <? List.length args)%nat then Raise TypeError
  else if negb (forallb (fun kv => is_parameter (fst kv)) kwargs) then Raise TypeError
  else if existsb (fun kv => given_positionally (List.length args) (fst kv)) kwargs
  then Raise TypeError
  else
    match zip_with (bind_argument args kwargs) (seq 0 3) init_parameters with
    | [T_kelvin; P_H2_atm; P_O2_atm] => Ret (init T_kelvin P_H2_atm P_O2_atm)
    | _ => Raise TypeError
    end.

(* ================================================================= *)
(** ** 2. Physics equations *)

(** Theoretical open-circuit voltage. *)
Definition calc_nernst_voltage (params : FuelCellParameters) : outcome num :=
  let E0 := 1.229 in
  let E_standard_T := E0 - 0.85e-3 * (T params - 298.15) in
  c <- py_div (R params * T params) (2 * F params) ;;
  let term_pressure :=
    mul (Fin c) (log (mul (Fin (P_H2 params)) (pow_half (P_O2 params)))) in
  Ret (add (Fin E_standard_T) term_pressure).

(** Activation loss (Tafel equation), floored at zero. *)
Definition calc_activation_loss (i : num) (params : FuelCellParameters)
  : outcome num :=
  let i0 := 1e-3 in
  term_tafel <- py_div (R params * T params) (2 * alpha params * F params) ;;
  let v_act := mul (Fin term_tafel) (log (div (add i (Fin 1e-6)) (Fin i0))) in
  Ret (maximum (Fin 0) v_act).

(** Ohmic loss. *)
Definition calc_ohmic_loss (i : num) (params : FuelCellParameters) : num :=
  mul i (Fin (area_resistance params)).

(** Concentration loss, with the current clamped below the limit. *)
Definition calc_concentration_loss (i : num) (params : FuelCellParameters)
  : outcome num :=
  let i_safe := minimum i (Fin (i_limit params - 1e-4)) in
  term_conc <- py_div (R params * T params) (2 * F params) ;;
  let v_conc :=
    mul (Fin (- term_conc))
        (log (sub (Fin 1) (div i_safe (Fin (i_limit params))))) in
  Ret v_conc.

(* ================================================================= *)
(** ** 3. Main simulation loop *)

Definition sweep : Type := list num * list num * list num * list (list num).

Definition simulate_fuel_cell (params : FuelCellParameters) : outcome sweep :=
  let current_density :=
    map Fin (np_linspace 0.001 (i_limit params - 0.05) 100) in
  E_nernst <- calc_nernst_voltage params ;;
  v_act <- mapM (fun i => calc_activation_loss i params) current_density ;;
  let v_ohmic := map (fun i => calc_ohmic_loss i params) current_density in
  v_conc <- mapM (fun i => calc_concentration_loss i params) current_density ;;
  let v_cell :=
    zip_with sub (zip_with sub (map (sub E_nernst) v_act) v_ohmic) v_conc in
  let p_cell := zip_with mul v_cell current_density in
  Ret (current_density, v_cell, p_cell, [v_act; v_ohmic; v_conc]).

(** ** 4. The instance the script simulates *)

Definition my_fc : FuelCellParameters := init 353 3.0 3.0.

(** Attribute assignment on a parameter set ([params.T = t] and so on),
    the way the tunable fields are varied for a study. *)
Definition with_T (p : FuelCellParameters) (t : real) : FuelCellParameters :=
  {| R := R p; F := F p; T := t; P_H2 := P_H2 p; P_O2 := P_O2 p;
     alpha := alpha p; area_resistance := area_resistance p;
     i_limit := i_limit p |}.

Definition with_pressures (p : FuelCellParameters) (h o : real)
  : FuelCellParameters :=
  {| R := R p; F := F p; T := T p; P_H2 := h; P_O2 := o;
     alpha := alpha p; area_resistance := area_resistance p;
     i_limit := i_limit p |}.

Definition with_alpha (p : FuelCellParameters) (a : real) : FuelCellParameters :=
  {| R := R p; F := F p; T := T p; P_H2 := P_H2 p; P_O2 := P_O2 p;
     alpha := a; area_resistance := area_resistance p;
     i_limit := i_limit p |}.

Definition with_i_limit (p : FuelCellParameters) (l : real) : FuelCellParameters :=
  {| R := R p; F := F p; T := T p; P_H2 := P_H2 p; P_O2 := P_O2 p;
     alpha := alpha p; area_resistance := area_resistance p;
     i_limit := l |}.

(** Two parameter sets that agree on every field but the partial
    pressures. *)
Definition same_but_pressures (p q : FuelCellParameters) : Prop :=
  R p = R q /\ F p = F q /\ T p = T q /\ alpha p = alpha q /\
  area_resistance p = area_resistance q /\ i_limit p = i_limit q.

(** The loss breakdown of a sweep: its three loss curves. *)
Definition breakdown (r : outcome sweep) : outcome (list (list num)) :=
  s <- r ;; Ret (snd s).

(** Strict and weak order between two results that are both finite
    numbers; it does not hold when either call raises or yields a special
    value. *)
Definition result_lt (a b : outcome num) : Prop :=
  match a, b with
  | Ret (Fin x), Ret (Fin y) => x < y
  | _, _ => False
  end.

Definition result_le (a b : outcome num) : Prop :=
  match a, b with
  | Ret (Fin x), Ret (Fin y) => x <= y
  | _, _ => False
  end.

(** The sample grid the specification asks of the sweep for a limiting
    current [l]: 100 evenly spaced samples from 0.001 to [l - 0.05], in
    increasing order, each strictly inside (0, [l]). *)
Definition evenly_spaced_inside (l : real) (cd : list real) : Prop :=
  List.length cd = 100%nat /\
  nth 0 cd 0 = 0.001 /\
  nth 99 cd 0 = l - 0.05 /\
  (forall k, (k < 100)%nat ->
     nth k cd 0 = 0.001 + INR k * ((l - 0.05 - 0.001) / 99)) /\
  (forall j k, (j < k)%nat -> (k < 100)%nat -> nth j cd 0 < nth k cd 0) /\
  (forall k, (k < 100)%nat -> 0 < nth k cd 0 < l).

(* ================================================================= *)
(** ** 5. Breakdown analysis *)

(** [np.abs].  The modulus of a complex entry is a float the model cannot
    express: such an entry is left marked complex (the current densities
    of a sweep are never complex). *)
Definition np_abs (a : num) : num :=
  match a with
  | Fin x => Fin (Rabs x)
  | PInf | NInf => PInf
  | NaN => NaN
  | Cplx => Cplx
  end.

(** The comparison [a >= b] of two float64 values: false as soon as one
    of them is a NaN.  A complex entry, whose parts are not tracked, is
    unordered too (arrays of complex type go through another loop of
    numpy, which is not modelled). *)
Definition np_ge (a b : num) : bool :=
  match a, b with
  | (NaN | Cplx), _ | _, (NaN | Cplx) => false
  | _, NInf => true
  | PInf, _ => true
  | NInf, _ => false
  | Fin _, PInf => false
  | Fin x, Fin y => if Rle_dec y x then true else false
  end.

Definition is_nan (a : num) : bool :=
  match a with
  | NaN => true
  | _ => false
  end.

(** The loop of [argmin] over a float64 array: [mp] is the least value
    seen so far, at index [min_ind]; an entry replaces it unless it is
    [>= mp]; a NaN, once taken, ends the scan. *)
Fixpoint argmin_from (mp : num) (min_ind idx : nat) (rest : list num) : nat :=
  match rest with
  | [] => min_ind
  | x :: rest' =>
      if is_nan mp then min_ind
      else if np_ge x mp then argmin_from mp min_ind (S idx) rest'
      else argmin_from x idx (S idx) rest'
  end.

(** [a.argmin()]: the index of the first least entry; [None] stands for
    the [ValueError] numpy raises on an empty array. *)
Definition np_argmin (a : list num) : option nat :=
  match a with
  | [] => None
  | x :: rest => Some (argmin_from x 0 1 rest)
  end.

(** [idx = np.abs(i - 1.0).argmin()], the index of the sample closest to
    1.0 A/cm^2 at which the script reports voltage and losses. *)
Definition closest_index (i : list num) : option nat :=
  np_argmin (map (fun x => np_abs (sub x (Fin 1.0))) i).

(** Order between two array entries that are both finite numbers. *)
Definition fin_lt (a b : num) : Prop :=
  match a, b with
  | Fin x, Fin y => x < y
  | _, _ => False
  end.

Definition fin_le (a b : num) : Prop :=
  match a, b with
  | Fin x, Fin y => x <= y
  | _, _ => False
  end.

(** Parameters of ordinary magnitude: the universal constants, a
    temperature between 1 and 1e4 K, pressures between 1e-3 and 1e3 atm,
    a charge-transfer coefficient between 0.01 and 1, a resistance of at
    most 1e3 and a limiting current between 0.06 and 1e3.  Inside this
    range the sweep is far from overflow and its samples are well apart,
    so that rounding does not alter the properties stated under it. *)
Definition working_range (p : FuelCellParameters) : Prop :=
  universal_constants p /\
  1 <= T p <= 1e4 /\
  1e-3 <= P_H2 p <= 1e3 /\
  1e-3 <= P_O2 p <= 1e3 /\
  1e-2 <= alpha p <= 1 /\
  0 <= area_resistance p <= 1e3 /\
  0.06 <= i_limit p <= 1e3.

(** ** The clamp of the concentration loss in binary64

    [calc_concentration_loss] evaluated in binary64 arithmetic for a
    parameter set with [R = 8.314] and [F = 96485] (temperature [T] and
    limit [i_limit] given as floats).  Primitive floats provide no
    logarithm: [np_log] is defined where [np.log] takes a special value
    (zero, negative, infinite or NaN argument), and the loss is [None]
    where the logarithm is an ordinary finite number. *)
Module B64.

Import PrimFloat.

(** [np.minimum]: the first operand when it is smaller or a NaN. *)
Definition np_minimum (a b : float) : float :=
  if orb (a <? b)%float (is_nan a) then a else b.

Definition np_log (x : float) : option float :=
  if is_nan x then Some nan
  else if (x =? 0)%float then Some neg_infinity
  else if (x <? 0)%float then Some nan
  else if (x =? infinity)%float then Some infinity
  else None.

(** The argument of the logarithm, [1 - i_safe / i_limit]. *)
Definition clamp_argument (i i_limit : float) : float :=
  let i_safe := np_minimum i (i_limit - 1e-4)%float in
  (1 - i_safe / i_limit)%float.

Definition calc_concentration_loss (i T i_limit : float) : option float :=
  let i_safe := np_minimum i (i_limit - 1e-4)%float in
  let term_conc := (8.314 * T / (2 * 96485))%float in
  match np_log (1 - i_safe / i_limit)%float with
  | Some l => Some (- term_conc * l)%float
  | None => None
  end.

End B64.

(** ** Values of the calculators in exact arithmetic

    The real numbers the calculators return on finite inputs; the lemmas
    below relate each of them to the code. *)
Module Closed.

Definition nernst (p : FuelCellParameters) : real :=
  1.229 - 0.85e-3 * (T p - 298.15)
  + R p * T p / (2 * F p) * ln (P_H2 p * sqrt (P_O2 p)).

Definition activation (p : FuelCellParameters) (i : real) : real :=
  Rmax 0 (R p * T p / (2 * alpha p * F p) * ln ((i + 1e-6) / 1e-3)).

Definition ohmic (p : FuelCellParameters) (i : real) : real :=
  i * area_resistance p.

Definition concentration (p : FuelCellParameters) (i : real) : real :=
  - (R p * T p / (2 * F p))
  * ln (1 - Rmin i (i_limit p - 1e-4) / i_limit p).

Definition cell_voltage (p : FuelCellParameters) (i : real) : real :=
  nernst p - activation p i - ohmic p i - concentration p i.

(** The [k]-th sample of the sweep for a limiting current [l]. *)
Definition sample (l : real) (k : nat) : real :=
  0.001 + INR k * ((l - 0.05 - 0.001) / 99).

End Closed.

(* ================================================================= *)
(** ** Evaluation lemmas for the numeric model *)

Section NumFacts.

Implicit Types x y : real.

Lemma sgn_pos x : 0 < x -> sgn x = Pos.
Proof.
  intros H. unfold sgn.
  destruct (total_order_T x 0) as [[Hlt | Heq] | Hgt]; try lra; reflexivity.
Qed.

Lemma sgn_neg x : x < 0 -> sgn x = Neg.
Proof.
  intros H. unfold sgn.
  destruct (total_order_T x 0) as [[Hlt | Heq] | Hgt]; try lra; reflexivity.
Qed.

Lemma sgn_zero x : x = 0 -> sgn x = Zero.
Proof.
  intros H. unfold sgn.
  destruct (total_order_T x 0) as [[Hlt | Heq] | Hgt]; try lra; reflexivity.
Qed.

Lemma sgn_nonzero x : x <> 0 -> sgn x <> Zero.
Proof.
  intros H. unfold sgn.
  destruct (total_order_T x 0) as [[Hlt | Heq] | Hgt]; try lra; discriminate.
Qed.

Lemma log_pos x : 0 < x -> log (Fin x) = Fin (ln x).
Proof. intros H. unfold log. now rewrite sgn_pos. Qed.

Lemma log_zero : log (Fin 0) = NInf.
Proof. unfold log. now rewrite sgn_zero. Qed.

Lemma log_neg x : x < 0 -> log (Fin x) = NaN.
Proof. intros H. unfold log. now rewrite sgn_neg. Qed.

Lemma div_fin x y : y <> 0 -> div (Fin x) (Fin y) = Fin (x / y).
Proof.
  intros H. unfold div. pose proof (sgn_nonzero y H).
  destruct (sgn y); congruence.
Qed.

Lemma pow_half_sqrt x : 0 < x -> pow_half x = Fin (sqrt x).
Proof.
  intros H. unfold pow_half. rewrite sgn_pos by assumption.
  now rewrite Rpower_sqrt.
Qed.

Lemma py_div_ret x y : y <> 0 -> py_div x y = Ret (x / y).
Proof.
  intros H. unfold py_div. pose proof (sgn_nonzero y H).
  destruct (sgn y); congruence.
Qed.

Lemma py_div_raise x : py_div x 0 = Raise ZeroDivisionError.
Proof. unfold py_div. now rewrite sgn_zero. Qed.

(** A product with a special value is never finite. *)
Lemma mul_fin_special x (a : num) :
  is_finite a = false -> is_finite (mul (Fin x) a) = false.
Proof.
  destruct a; simpl; intros H; try discriminate; try reflexivity;
    match goal with |- context [sgn ?t] => destruct (sgn t) end; reflexivity.
Qed.

Lemma add_fin_special x (a : num) :
  is_finite a = false -> is_finite (add (Fin x) a) = false.
Proof. destruct a; simpl; intros H; try discriminate; reflexivity. Qed.

End NumFacts.

(* ================================================================= *)
(** ** Arrays *)

Section Arrays.

Context {A B C : Type}.

Lemma Ret_inj (a a' : A) : Ret a = Ret a' -> a = a'.
Proof. intros H. congruence. Qed.

Lemma mapM_total (f : A -> outcome B) (g : A -> B) (l : list A) :
  (forall a, f a = Ret (g a)) -> mapM f l = Ret (map g l).
Proof.
  intros Hf. induction l as [| a l IH]; simpl.
  - reflexivity.
  - now rewrite Hf, IH.
Qed.

Lemma mapM_raise (f : A -> outcome B) (e : pyexn) (a : A) (l : list A) :
  f a = Raise e -> mapM f (a :: l) = Raise e.
Proof. intros H. simpl. now rewrite H. Qed.

(** A mapped call that returns has returned at every element. *)
Lemma mapM_inv (f : A -> outcome B) (l : list A) (bs : list B) :
  mapM f l = Ret bs ->
  List.length bs = List.length l /\
  forall (k : nat) (da : A) (db : B),
    (k < List.length l)%nat -> f (nth k l da) = Ret (nth k bs db).
Proof.
  revert bs. induction l as [| a l IH]; intros bs H; simpl in H.
  - injection H as <-. split; [reflexivity | simpl; intros; lia].
  - destruct (f a) as [b | e] eqn:Hfa; simpl in H; [| discriminate].
    destruct (mapM f l) as [bs' | e]; simpl in H; [| discriminate].
    injection H as <-. destruct (IH bs' eq_refl) as [Hlen Hnth].
    split; [simpl; now rewrite Hlen |].
    intros [| k] da db Hk; simpl in *; [exact Hfa | apply Hnth; lia].
Qed.

Lemma zip_with_length (f : A -> B -> C) (xs : list A) (ys : list B) :
  List.length xs = List.length ys ->
  List.length (zip_with f xs ys) = List.length xs.
Proof.
  revert ys. induction xs as [| x xs IH]; intros [| y ys] H; simpl in *;
    try reflexivity; try discriminate.
  f_equal. apply IH. now injection H.
Qed.

Lemma zip_with_nth (f : A -> B -> C) (xs : list A) (ys : list B)
  (dx : A) (dy : B) (dz : C) (k : nat) :
  (k < List.length xs)%nat -> (k < List.length ys)%nat ->
  nth k (zip_with f xs ys) dz = f (nth k xs dx) (nth k ys dy).
Proof.
  revert ys k. induction xs as [| x xs IH]; intros [| y ys] [| k] Hx Hy;
    simpl in *; try lia; try reflexivity.
  apply IH; lia.
Qed.

End Arrays.

Lemma map_nth_in {A B : Type} (f : A -> B) (l : list A) (da : A) (db : B) (k : nat) :
  (k < List.length l)%nat -> nth k (map f l) db = f (nth k l da).
Proof.
  revert k. induction l as [| a l IH]; intros [| k] H; simpl in *;
    try lia; try reflexivity.
  apply IH. lia.
Qed.

(** *** [np_linspace] *)

Lemma np_linspace_length (a b : real) (n : nat) :
  List.length (np_linspace a b n) = n.
Proof.
  unfold np_linspace. destruct n as [| [| n]]; try reflexivity.
  rewrite length_app, length_map, length_seq. simpl. lia.
Qed.

Lemma np_linspace_nth (a b : real) (n k : nat) :
  (2 <= n)%nat -> (k < n)%nat ->
  nth k (np_linspace a b n) 0 = a + INR k * ((b - a) / INR (n - 1)).
Proof.
  intros Hn Hk. unfold np_linspace.
  destruct n as [| [| n]]; try lia.
  assert (Hpos : 0 < INR (S (S n) - 1)) by (apply lt_0_INR; lia).
  destruct (Nat.eq_dec k (S n)) as [-> | Hne].
  - rewrite app_nth2; rewrite length_map, length_seq; [| simpl; lia].
    replace (S n - (S (S n) - 1))%nat with 0%nat by lia. simpl nth.
    replace (S (S n) - 1)%nat with (S n) by lia.
    replace (S (S n) - 1)%nat with (S n) in Hpos by lia.
    field. lra.
  - rewrite app_nth1 by (rewrite length_map, length_seq; simpl; lia).
    rewrite (map_nth_in _ _ 0%nat) by (rewrite length_seq; simpl; lia).
    rewrite seq_nth by (simpl; lia). simpl Nat.add. lra.
Qed.

(* ================================================================= *)
(** ** The calculators on finite inputs *)

Lemma universal_constants_init (t h o : real) : universal_constants (init t h o).
Proof. split; reflexivity. Qed.

Lemma two_F_nonzero (p : FuelCellParameters) :
  universal_constants p -> 2 * F p <> 0.
Proof. intros [_ HF]. rewrite HF. lra. Qed.

Lemma tafel_divisor_nonzero (p : FuelCellParameters) :
  universal_constants p -> alpha p <> 0 -> 2 * alpha p * F p <> 0.
Proof.
  intros [_ HF] Ha. rewrite HF. intros H.
  apply Ha. nra.
Qed.

(** The activation loss returns for every input once the Tafel divisor
    is not zero. *)
Lemma calc_activation_loss_returns (p : FuelCellParameters) (i : num) :
  universal_constants p -> alpha p <> 0 ->
  calc_activation_loss i p =
  Ret (maximum (Fin 0)
         (mul (Fin (R p * T p / (2 * alpha p * F p)))
              (log (div (add i (Fin 1e-6)) (Fin 1e-3))))).
Proof.
  intros Hc Ha. unfold calc_activation_loss.
  rewrite py_div_ret by now apply tafel_divisor_nonzero.
  reflexivity.
Qed.

Lemma calc_concentration_loss_returns (p : FuelCellParameters) (i : num) :
  universal_constants p ->
  calc_concentration_loss i p =
  Ret (mul (Fin (- (R p * T p / (2 * F p))))
           (log (sub (Fin 1)
                     (div (minimum i (Fin (i_limit p - 1e-4)))
                          (Fin (i_limit p)))))).
Proof.
  intros Hc. unfold calc_concentration_loss.
  rewrite py_div_ret by now apply two_F_nonzero.
  reflexivity.
Qed.

(** Below the limit the clamped current leaves a positive argument to
    the logarithm. *)
Lemma clamp_argument_pos (l i : real) :
  0 < l -> 0 < 1 - Rmin i (l - 1e-4) / l.
Proof.
  intros Hl.
  assert (Hm : Rmin i (l - 1e-4) <= l - 1e-4) by apply Rmin_r.
  assert (Hd : Rmin i (l - 1e-4) / l < 1).
  { apply Rmult_lt_reg_r with l; [assumption |].
    unfold Rdiv. rewrite Rmult_assoc, Rinv_l by lra. lra. }
  lra.
Qed.

Lemma calc_concentration_loss_fin (p : FuelCellParameters) (i : real) :
  universal_constants p -> 0 < i_limit p ->
  calc_concentration_loss (Fin i) p =
  Ret (Fin (- (R p * T p / (2 * F p)) *
            ln (1 - Rmin i (i_limit p - 1e-4) / i_limit p))).
Proof.
  intros Hc Hl. rewrite calc_concentration_loss_returns by assumption.
  simpl minimum. rewrite div_fin by lra.
  unfold sub. simpl neg. simpl add.
  replace (1 + - (Rmin i (i_limit p - 1e-4) / i_limit p))
    with (1 - Rmin i (i_limit p - 1e-4) / i_limit p) by lra.
  rewrite log_pos by now apply clamp_argument_pos.
  reflexivity.
Qed.

(** The guard [1e-6] keeps the argument of the Tafel logarithm
    positive from [i = 0] on. *)
Lemma tafel_argument_pos (i : real) : 0 <= i -> 0 < (i + 1e-6) / 1e-3.
Proof. intros Hi. apply Rdiv_lt_0_compat; lra. Qed.

Lemma calc_activation_loss_fin (p : FuelCellParameters) (i : real) :
  universal_constants p -> alpha p <> 0 -> 0 <= i ->
  calc_activation_loss (Fin i) p =
  Ret (Fin (Rmax 0 (R p * T p / (2 * alpha p * F p)
                    * ln ((i + 1e-6) / 1e-3)))).
Proof.
  intros Hc Ha Hi. rewrite calc_activation_loss_returns by assumption.
  simpl add. rewrite div_fin by lra.
  rewrite log_pos by now apply tafel_argument_pos.
  reflexivity.
Qed.

(** Whatever the activation loss returns at [i >= 0] is the floored
    Tafel value, for any field values. *)
Lemma calc_activation_loss_ret_inv (p : FuelCellParameters) (i : real) (v : num) :
  0 <= i -> calc_activation_loss (Fin i) p = Ret v ->
  v = Fin (Rmax 0 (R p * T p / (2 * alpha p * F p) * ln ((i + 1e-6) / 1e-3))).
Proof.
  intros Hi H.
  destruct (Req_dec (2 * alpha p * F p) 0) as [Hz | Hnz].
  - unfold calc_activation_loss in H. rewrite Hz, py_div_raise in H.
    discriminate.
  - unfold calc_activation_loss in H.
    rewrite py_div_ret in H by exact Hnz. cbn [bind] in H.
    apply Ret_inj in H. subst v.
    simpl add. rewrite div_fin by lra.
    rewrite log_pos by (now apply tafel_argument_pos). reflexivity.
Qed.

Lemma calc_nernst_voltage_fin (p : FuelCellParameters) :
  universal_constants p -> 0 < P_H2 p -> 0 < P_O2 p ->
  calc_nernst_voltage p =
  Ret (Fin (1.229 - 0.85e-3 * (T p - 298.15)
            + R p * T p / (2 * F p) * ln (P_H2 p * sqrt (P_O2 p)))).
Proof.
  intros Hc Hh Ho. unfold calc_nernst_voltage.
  rewrite py_div_ret by now apply two_F_nonzero.
  simpl bind. rewrite pow_half_sqrt by assumption. simpl mul.
  rewrite log_pos.
  - reflexivity.
  - apply Rmult_lt_0_compat; [assumption | now apply sqrt_lt_R0].
Qed.

(* ================================================================= *)
(** ** Properties of the specification *)

(** C2.  With both partial pressures positive, [calc_nernst_voltage]
    returns [1.229 - 0.85e-3*(T - 298.15) + (R*T/(2*F)) * ln(P_H2 *
    sqrt(P_O2))] with [R = 8.314] and [F = 96485]; the source's
    [P_O2 ** 0.5] is the square root there. *)
Theorem calc_nernst_voltage_formula (p : FuelCellParameters) :
  universal_constants p -> 0 < P_H2 p -> 0 < P_O2 p ->
  calc_nernst_voltage p =
  Ret (Fin (1.229 - 0.85e-3 * (T p - 298.15)
            + 8.314 * T p / (2 * 96485) * ln (P_H2 p * sqrt (P_O2 p)))).
Proof.
  intros Hc Hh Ho. rewrite calc_nernst_voltage_fin by assumption.
  destruct Hc as [HR HF]. now rewrite HR, HF.
Qed.

Lemma calc_nernst_voltage_formula_my_fc :
  calc_nernst_voltage my_fc =
  Ret (Fin (1.229 - 0.85e-3 * (353 - 298.15)
            + 8.314 * 353 / (2 * 96485) * ln (3.0 * sqrt 3.0))).
Proof.
  apply (calc_nernst_voltage_formula my_fc).
  - apply universal_constants_init.
  - simpl. lra.
  - simpl. lra.
Defined.

(** C3.  For every parameter set and current density [i >= 0],
    [calc_activation_loss] returns
    [max(0, (R*T/(2*alpha*F)) * ln((i + 1e-6) / 1e-3))]: no other value
    is ever returned, that value is returned whenever the divisor
    [2*alpha*F] of the formula is not zero, the argument of the logarithm
    is positive, also at [i = 0], and the loss is never negative. *)
Theorem calc_activation_loss_floor (p : FuelCellParameters) (i : real) :
  0 <= i ->
  0 < (i + 1e-6) / 1e-3 /\
  (forall v : num,
     calc_activation_loss (Fin i) p = Ret v ->
     v = Fin (Rmax 0 (R p * T p / (2 * alpha p * F p)
                      * ln ((i + 1e-6) / 1e-3)))) /\
  (universal_constants p -> alpha p <> 0 ->
   calc_activation_loss (Fin i) p =
   Ret (Fin (Rmax 0 (R p * T p / (2 * alpha p * F p)
                     * ln ((i + 1e-6) / 1e-3))))) /\
  0 <= Rmax 0 (R p * T p / (2 * alpha p * F p) * ln ((i + 1e-6) / 1e-3)).
Proof.
  intros Hi.
  split; [now apply tafel_argument_pos | split; [| split]].
  - intros v Hv. now apply calc_activation_loss_ret_inv.
  - intros Hc Ha. now apply calc_activation_loss_fin.
  - apply Rmax_l.
Qed.

Lemma calc_activation_loss_floor_at_zero :
  0 < (0 + 1e-6) / 1e-3 /\
  calc_activation_loss (Fin 0) my_fc =
  Ret (Fin (Rmax 0 (R my_fc * T my_fc / (2 * alpha my_fc * F my_fc)
                    * ln ((0 + 1e-6) / 1e-3)))) /\
  0 <= Rmax 0 (R my_fc * T my_fc / (2 * alpha my_fc * F my_fc)
               * ln ((0 + 1e-6) / 1e-3)).
Proof.
  destruct (calc_activation_loss_floor my_fc 0) as (Harg & _ & Hret & Hpos).
  - lra.
  - split; [exact Harg | split; [| exact Hpos]].
    apply Hret.
    + apply universal_constants_init.
    + simpl. lra.
Defined.

(** C5 (amended).  For a parameter set with a limit between 1e-6 and
    1e6 and a temperature between -1e6 and 1e6, a current density at or
    beyond the limit does not make [calc_concentration_loss] fail: the
    call returns a finite value, the one it returns at
    [i = i_limit - 1e-4], because the input is clamped to
    [min(i, i_limit - 1e-4)], which leaves the logarithm the positive
    argument [1 - (i_limit - 1e-4) / i_limit]. *)
Theorem calc_concentration_loss_saturates (p : FuelCellParameters) (i : real) :
  universal_constants p ->
  -1e6 <= T p <= 1e6 -> 1e-6 <= i_limit p <= 1e6 -> i_limit p <= i ->
  exists v : real,
    calc_concentration_loss (Fin i) p = Ret (Fin v) /\
    calc_concentration_loss (Fin (i_limit p - 1e-4)) p = Ret (Fin v) /\
    v = - (R p * T p / (2 * F p))
        * ln (1 - (i_limit p - 1e-4) / i_limit p) /\
    0 < 1 - (i_limit p - 1e-4) / i_limit p.
Proof.
  intros Hc _ [Hl _] Hi.
  assert (Hl0 : 0 < i_limit p) by lra.
  exists (- (R p * T p / (2 * F p)) * ln (1 - (i_limit p - 1e-4) / i_limit p)).
  repeat split.
  - rewrite calc_concentration_loss_fin by assumption.
    now rewrite Rmin_right by lra.
  - rewrite calc_concentration_loss_fin by assumption.
    now rewrite Rmin_right by lra.
  - replace (1 - (i_limit p - 1e-4) / i_limit p) with (1e-4 / i_limit p)
      by (field; lra).
    apply Rdiv_lt_0_compat; lra.
Qed.

Lemma calc_concentration_loss_saturates_my_fc :
  exists v : real,
    calc_concentration_loss (Fin 2.5) my_fc = Ret (Fin v) /\
    calc_concentration_loss (Fin (i_limit my_fc - 1e-4)) my_fc = Ret (Fin v) /\
    v = - (R my_fc * T my_fc / (2 * F my_fc))
        * ln (1 - (i_limit my_fc - 1e-4) / i_limit my_fc) /\
    0 < 1 - (i_limit my_fc - 1e-4) / i_limit my_fc.
Proof.
  apply (calc_concentration_loss_saturates my_fc 2.5).
  - apply universal_constants_init.
  - simpl. lra.
  - simpl. lra.
  - simpl. lra.
Defined.

(** C5 as stated fails for a very large limit: in binary64, with
    [i_limit = 1e13] the guard is absorbed ([1e13 - 1e-4] is [1e13]), at
    [i = 2e13 >= i_limit] the logarithm receives exactly zero, and with
    [T = 353] the call returns plus infinity. *)
Section Binary64.
Import PrimFloat.

Lemma calc_concentration_loss_guard_absorbed :
  (0 <? 1e13)%float = true /\
  (1e13 <=? 2e13)%float = true /\
  (1e13 - 1e-4)%float = 1e13%float /\
  B64.clamp_argument 2e13 1e13 = 0%float /\
  B64.calc_concentration_loss 2e13 353 1e13 = Some infinity.
Proof. repeat split. Qed.

End Binary64.

(** C10.  Two parameter sets that differ only in [P_H2] and [P_O2] give
    the same activation, ohmic and concentration loss at every current
    density, and the same loss curves in the sweep. *)
Theorem losses_ignore_pressures (p q : FuelCellParameters) (i : num) :
  same_but_pressures p q ->
  calc_activation_loss i p = calc_activation_loss i q /\
  calc_ohmic_loss i p = calc_ohmic_loss i q /\
  calc_concentration_loss i p = calc_concentration_loss i q /\
  breakdown (simulate_fuel_cell p) = breakdown (simulate_fuel_cell q).
Proof.
  destruct p as [r f t h o a ar l], q as [r' f' t' h' o' a' ar' l'].
  unfold same_but_pressures. simpl.
  intros (-> & -> & -> & -> & -> & ->).
  repeat split.
  unfold simulate_fuel_cell, calc_nernst_voltage, breakdown, bind.
  unfold calc_activation_loss, calc_concentration_loss, calc_ohmic_loss, bind.
  cbn [R F T alpha area_resistance i_limit P_H2 P_O2].
  repeat match goal with
         | |- context [match ?m with Ret _ => _ | Raise _ => _ end] =>
             lazymatch m with
             | context [match _ with Ret _ => _ | Raise _ => _ end] => fail
             | _ => destruct m
             end
         end;
    reflexivity.
Qed.

Lemma losses_ignore_pressures_my_fc :
  calc_activation_loss (Fin 1) my_fc
  = calc_activation_loss (Fin 1) (with_pressures my_fc 1.0 0.21) /\
  calc_ohmic_loss (Fin 1) my_fc
  = calc_ohmic_loss (Fin 1) (with_pressures my_fc 1.0 0.21) /\
  calc_concentration_loss (Fin 1) my_fc
  = calc_concentration_loss (Fin 1) (with_pressures my_fc 1.0 0.21) /\
  breakdown (simulate_fuel_cell my_fc)
  = breakdown (simulate_fuel_cell (with_pressures my_fc 1.0 0.21)).
Proof.
  apply (losses_ignore_pressures my_fc (with_pressures my_fc 1.0 0.21) (Fin 1)).
  repeat split.
Defined.

(** *** The sweep *)

Lemma calc_nernst_voltage_returns (p : FuelCellParameters) :
  universal_constants p -> exists E : num, calc_nernst_voltage p = Ret E.
Proof.
  intros Hc. unfold calc_nernst_voltage.
  rewrite py_div_ret by now apply two_F_nonzero.
  eexists. reflexivity.
Qed.

(** The sweep returns whenever the Tafel divisor is not zero, and its
    curves are the calculators mapped over the sample grid. *)
Lemma simulate_fuel_cell_returns (p : FuelCellParameters) :
  universal_constants p -> alpha p <> 0 ->
  exists (E : num) (g_act g_conc : num -> num),
    calc_nernst_voltage p = Ret E /\
    (forall i, calc_activation_loss i p = Ret (g_act i)) /\
    (forall i, calc_concentration_loss i p = Ret (g_conc i)) /\
    let cd := map Fin (np_linspace 0.001 (i_limit p - 0.05) 100) in
    let v_act := map g_act cd in
    let v_ohmic := map (fun i => calc_ohmic_loss i p) cd in
    let v_conc := map g_conc cd in
    let v_cell :=
      zip_with sub (zip_with sub (map (sub E) v_act) v_ohmic) v_conc in
    simulate_fuel_cell p =
    Ret (cd, v_cell, zip_with mul v_cell cd, [v_act; v_ohmic; v_conc]).
Proof.
  intros Hc Ha.
  destruct (calc_nernst_voltage_returns p Hc) as [E HE].
  exists E.
  exists (fun i => maximum (Fin 0)
            (mul (Fin (R p * T p / (2 * alpha p * F p)))
                 (log (div (add i (Fin 1e-6)) (Fin 1e-3))))).
  exists (fun i => mul (Fin (- (R p * T p / (2 * F p))))
            (log (sub (Fin 1)
                      (div (minimum i (Fin (i_limit p - 1e-4)))
                           (Fin (i_limit p)))))).
  split; [exact HE | split; [| split]].
  - intros i. now apply calc_activation_loss_returns.
  - intros i. now apply calc_concentration_loss_returns.
  - intros cd v_act v_ohmic v_conc v_cell.
    unfold simulate_fuel_cell. rewrite HE. cbn [bind].
    rewrite (mapM_total _ _ _ (fun i => calc_activation_loss_returns p i Hc Ha)).
    cbn [bind].
    rewrite (mapM_total _ _ _ (fun i => calc_concentration_loss_returns p i Hc)).
    reflexivity.
Qed.

(** With a zero charge-transfer coefficient the Tafel term divides by
    zero and the sweep raises. *)
Lemma simulate_fuel_cell_zero_alpha (p : FuelCellParameters) :
  universal_constants p -> alpha p = 0 ->
  simulate_fuel_cell p = Raise ZeroDivisionError.
Proof.
  intros Hc Ha.
  destruct (calc_nernst_voltage_returns p Hc) as [E HE].
  unfold simulate_fuel_cell. rewrite HE. cbn [bind].
  assert (Hn : (2 <= 100)%nat) by lia.
  destruct (np_linspace 0.001 (i_limit p - 0.05) 100) as [| x xs] eqn:Hl.
  - pose proof (np_linspace_length 0.001 (i_limit p - 0.05) 100) as Hlen.
    rewrite Hl in Hlen. discriminate.
  - cbn [map]. rewrite (mapM_raise _ ZeroDivisionError); [reflexivity |].
    unfold calc_activation_loss. rewrite Ha.
    replace (2 * 0 * F p) with 0 by lra. now rewrite py_div_raise.
Qed.

Example simulate_fuel_cell_my_fc_zero_alpha :
  simulate_fuel_cell (with_alpha my_fc 0) = Raise ZeroDivisionError.
Proof.
  apply simulate_fuel_cell_zero_alpha; [split |]; reflexivity.
Qed.

(** What a returning sweep has computed, read off the body of
    [simulate_fuel_cell]. *)
Lemma simulate_fuel_cell_inv (p : FuelCellParameters)
  (cd v_cell p_cell : list num) (losses : list (list num)) :
  simulate_fuel_cell p = Ret (cd, v_cell, p_cell, losses) ->
  exists (E : num) (v_act v_conc : list num),
    calc_nernst_voltage p = Ret E /\
    cd = map Fin (np_linspace 0.001 (i_limit p - 0.05) 100) /\
    mapM (fun i => calc_activation_loss i p) cd = Ret v_act /\
    mapM (fun i => calc_concentration_loss i p) cd = Ret v_conc /\
    v_cell =
    zip_with sub
      (zip_with sub (map (sub E) v_act) (map (fun i => calc_ohmic_loss i p) cd))
      v_conc /\
    p_cell = zip_with mul v_cell cd /\
    losses = [v_act; map (fun i => calc_ohmic_loss i p) cd; v_conc].
Proof.
  unfold simulate_fuel_cell. intros H.
  destruct (calc_nernst_voltage p) as [E | e]; cbn [bind] in H; [| discriminate].
  destruct (mapM (fun i => calc_activation_loss i p) _) as [va | e] eqn:Hact;
    cbn [bind] in H; [| discriminate].
  destruct (mapM (fun i => calc_concentration_loss i p) _) as [vc | e] eqn:Hconc;
    cbn [bind] in H; [| discriminate].
  injection H as <- <- <- <-.
  exists E, va, vc. repeat split; assumption.
Qed.

Lemma sweep_grid_length (l : real) :
  List.length (map Fin (np_linspace 0.001 (l - 0.05) 100)) = 100%nat.
Proof. now rewrite length_map, np_linspace_length. Qed.

(** C1.  For every parameter set, the net-voltage curve returned by
    [simulate_fuel_cell] is, at every index [k],
    [E_nernst - v_act[k] - v_ohmic[k] - v_conc[k]]: [E_nernst] is the one
    value of [calc_nernst_voltage], and the three losses are the
    calculators at the [k]-th current-density sample.  The sweep does
    return its curves whenever the Tafel divisor is not zero. *)
Theorem simulate_fuel_cell_net_voltage (p : FuelCellParameters) :
  (forall (cd v_cell p_cell v_act v_ohmic v_conc : list num),
     simulate_fuel_cell p = Ret (cd, v_cell, p_cell, [v_act; v_ohmic; v_conc]) ->
     exists E_nernst : num,
       calc_nernst_voltage p = Ret E_nernst /\
       List.length cd = 100%nat /\
       List.length v_cell = 100%nat /\
       forall k, (k < 100)%nat ->
         calc_activation_loss (nth k cd NaN) p = Ret (nth k v_act NaN) /\
         calc_ohmic_loss (nth k cd NaN) p = nth k v_ohmic NaN /\
         calc_concentration_loss (nth k cd NaN) p = Ret (nth k v_conc NaN) /\
         nth k v_cell NaN =
         sub (sub (sub E_nernst (nth k v_act NaN)) (nth k v_ohmic NaN))
             (nth k v_conc NaN)) /\
  (universal_constants p -> alpha p <> 0 ->
   exists (cd v_cell p_cell v_act v_ohmic v_conc : list num),
     simulate_fuel_cell p = Ret (cd, v_cell, p_cell, [v_act; v_ohmic; v_conc])).
Proof.
  split.
  - intros cd v_cell p_cell v_act v_ohmic v_conc Hsim.
    destruct (simulate_fuel_cell_inv _ _ _ _ _ Hsim)
      as (E & va & vc & HE & Hcd & Hact & Hconc & Hv & _ & Hls).
    injection Hls as -> -> ->.
    assert (Hlen : List.length cd = 100%nat)
      by (rewrite Hcd; apply sweep_grid_length).
    destruct (mapM_inv _ _ _ Hact) as [Hla Hna].
    destruct (mapM_inv _ _ _ Hconc) as [Hlc Hnc].
    assert (Hlv : List.length v_cell = 100%nat).
    { rewrite Hv. rewrite !zip_with_length; rewrite ?zip_with_length, ?length_map;
        rewrite ?length_map; congruence. }
    exists E. split; [exact HE | split; [exact Hlen | split; [exact Hlv |]]].
    intros k Hk.
    split; [apply Hna; lia | split; [| split; [apply Hnc; lia |]]].
    + symmetry.
      apply (map_nth_in (fun i => calc_ohmic_loss i p) cd NaN NaN k). lia.
    + rewrite Hv.
      rewrite (zip_with_nth sub _ _ NaN NaN NaN);
        [| rewrite zip_with_length; rewrite !length_map; lia | lia].
      rewrite (zip_with_nth sub _ _ NaN NaN NaN) by (rewrite !length_map; lia).
      rewrite (map_nth_in (sub E) _ NaN NaN) by lia.
      reflexivity.
  - intros Hc Ha.
    destruct (simulate_fuel_cell_returns p Hc Ha)
      as (E & g_act & g_conc & _ & _ & _ & Hsim).
    cbv zeta in Hsim. do 6 eexists. exact Hsim.
Qed.

Lemma simulate_fuel_cell_net_voltage_my_fc :
  exists (E_nernst : num) (cd v_cell p_cell v_act v_ohmic v_conc : list num),
    simulate_fuel_cell my_fc
    = Ret (cd, v_cell, p_cell, [v_act; v_ohmic; v_conc]) /\
    calc_nernst_voltage my_fc = Ret E_nernst /\
    List.length cd = 100%nat /\
    List.length v_cell = 100%nat /\
    forall k, (k < 100)%nat ->
      calc_activation_loss (nth k cd NaN) my_fc = Ret (nth k v_act NaN) /\
      calc_ohmic_loss (nth k cd NaN) my_fc = nth k v_ohmic NaN /\
      calc_concentration_loss (nth k cd NaN) my_fc = Ret (nth k v_conc NaN) /\
      nth k v_cell NaN =
      sub (sub (sub E_nernst (nth k v_act NaN)) (nth k v_ohmic NaN))
          (nth k v_conc NaN).
Proof.
  destruct (simulate_fuel_cell_net_voltage my_fc) as [Hcurve Hreturns].
  destruct Hreturns as (cd & v & pw & va & vo & vc & Hsim).
  - apply universal_constants_init.
  - simpl. lra.
  - destruct (Hcurve cd v pw va vo vc Hsim) as (E & Hprops).
    exists E, cd, v, pw, va, vo, vc. split; [exact Hsim | exact Hprops].
Defined.

(** *** The sample grid *)

Lemma INR_99 : INR (100 - 1) = 99.
Proof.
  replace (100 - 1)%nat with 99%nat by reflexivity.
  rewrite INR_IZR_INZ. reflexivity.
Qed.

Lemma sweep_grid_nth (l : real) (k : nat) :
  (k < 100)%nat ->
  nth k (np_linspace 0.001 (l - 0.05) 100) 0
  = 0.001 + INR k * ((l - 0.05 - 0.001) / 99).
Proof.
  intros Hk. rewrite np_linspace_nth by lia. now rewrite INR_99.
Qed.

Lemma INR_below_100 (k : nat) : (k < 100)%nat -> 0 <= INR k <= 99.
Proof.
  intros Hk. split; [apply pos_INR |].
  rewrite <- INR_99. apply le_INR. lia.
Qed.

(** Above a limit of 0.051 the grid is increasing and inside (0, l). *)
Lemma sweep_grid_inside (l : real) :
  0.051 < l -> evenly_spaced_inside l (np_linspace 0.001 (l - 0.05) 100).
Proof.
  intros Hl. unfold evenly_spaced_inside.
  assert (Hstep : 0 < (l - 0.05 - 0.001) / 99) by (apply Rdiv_lt_0_compat; lra).
  split; [apply np_linspace_length | split; [| split; [| split; [| split]]]].
  - rewrite sweep_grid_nth by lia. simpl INR. lra.
  - rewrite sweep_grid_nth by lia.
    replace 99%nat with (100 - 1)%nat by reflexivity. rewrite INR_99. field.
  - intros k Hk. now apply sweep_grid_nth.
  - intros j k Hjk Hk. rewrite !sweep_grid_nth by lia.
    apply lt_INR in Hjk. nra.
  - intros k Hk. rewrite sweep_grid_nth by lia.
    pose proof (INR_below_100 k Hk) as [H0 H99].
    set (s := (l - 0.05 - 0.001) / 99) in *.
    assert (H99s : 99 * s = l - 0.05 - 0.001) by (unfold s; field).
    split; nra.
Qed.

(** The last sample is always [i_limit - 0.05]. *)
Lemma sweep_grid_last (l : real) :
  nth 99 (np_linspace 0.001 (l - 0.05) 100) 0 = l - 0.05.
Proof.
  rewrite sweep_grid_nth by lia.
  replace 99%nat with (100 - 1)%nat by reflexivity. rewrite INR_99. field.
Qed.

Lemma simulate_fuel_cell_grid (p : FuelCellParameters) :
  universal_constants p -> alpha p <> 0 ->
  exists (v_cell p_cell : list num) (losses : list (list num)),
    simulate_fuel_cell p =
    Ret (map Fin (np_linspace 0.001 (i_limit p - 0.05) 100),
         v_cell, p_cell, losses).
Proof.
  intros Hc Ha.
  destruct (simulate_fuel_cell_returns p Hc Ha)
    as (E & g_act & g_conc & _ & _ & _ & Hsim).
  cbv zeta in Hsim. do 3 eexists. exact Hsim.
Qed.

(** C4 (amended).  For a parameter set with a limit between 0.06 and
    1e6, the current densities of a sweep are exactly 100 evenly spaced
    samples from 0.001 to [i_limit - 0.05], in increasing order, each
    strictly inside (0, [i_limit]); the sweep does return them whenever
    the Tafel divisor is not zero. *)
Theorem simulate_fuel_cell_samples (p : FuelCellParameters) :
  0.06 <= i_limit p <= 1e6 ->
  (forall (cd v_cell p_cell : list num) (losses : list (list num)),
     simulate_fuel_cell p = Ret (cd, v_cell, p_cell, losses) ->
     exists xs : list real,
       cd = map Fin xs /\ evenly_spaced_inside (i_limit p) xs) /\
  (universal_constants p -> alpha p <> 0 ->
   exists (cd v_cell p_cell : list num) (losses : list (list num)),
     simulate_fuel_cell p = Ret (cd, v_cell, p_cell, losses)).
Proof.
  intros [Hl _]. split.
  - intros cd v pw ls Hsim.
    destruct (simulate_fuel_cell_inv _ _ _ _ _ Hsim)
      as (E & va & vc & _ & Hcd & _).
    exists (np_linspace 0.001 (i_limit p - 0.05) 100).
    split; [exact Hcd | apply sweep_grid_inside; lra].
  - intros Hc Ha.
    destruct (simulate_fuel_cell_grid p Hc Ha) as (v & pw & ls & Hsim).
    do 4 eexists. exact Hsim.
Qed.

Lemma simulate_fuel_cell_samples_my_fc :
  exists (xs : list real) (v_cell p_cell : list num) (losses : list (list num)),
    simulate_fuel_cell my_fc = Ret (map Fin xs, v_cell, p_cell, losses) /\
    evenly_spaced_inside (i_limit my_fc) xs.
Proof.
  destruct (simulate_fuel_cell_samples my_fc) as [Hgrid Hreturns].
  - simpl. lra.
  - destruct Hreturns as (cd & v & pw & ls & Hsim).
    + apply universal_constants_init.
    + simpl. lra.
    + destruct (Hgrid cd v pw ls Hsim) as (xs & Hcd & Hin).
      exists xs, v, pw, ls. split; [now rewrite <- Hcd | exact Hin].
Defined.

(** C4 as stated fails for a small positive limit: with [i_limit = 0.01]
    the sweep ends at the sample [-0.04], outside (0, 0.01). *)
Lemma simulate_fuel_cell_samples_small_limit :
  universal_constants (with_i_limit my_fc 0.01) /\
  0 < i_limit (with_i_limit my_fc 0.01) /\
  exists (cd : list real) (v_cell p_cell : list num) (losses : list (list num)),
    simulate_fuel_cell (with_i_limit my_fc 0.01)
    = Ret (map Fin cd, v_cell, p_cell, losses) /\
    nth 99 cd 0 = -0.04 /\
    ~ evenly_spaced_inside (i_limit (with_i_limit my_fc 0.01)) cd.
Proof.
  assert (Hc : universal_constants (with_i_limit my_fc 0.01))
    by (split; reflexivity).
  split; [exact Hc | split; [simpl; lra |]].
  destruct (simulate_fuel_cell_grid (with_i_limit my_fc 0.01) Hc)
    as (v & pw & ls & Hsim); [simpl; lra |].
  exists (np_linspace 0.001 (i_limit (with_i_limit my_fc 0.01) - 0.05) 100).
  exists v, pw, ls.
  assert (Hlast :
    nth 99 (np_linspace 0.001 (i_limit (with_i_limit my_fc 0.01) - 0.05) 100) 0
    = -0.04).
  { rewrite sweep_grid_last. simpl. lra. }
  split; [exact Hsim | split; [exact Hlast |]].
  intros (_ & _ & _ & _ & _ & Hin).
  specialize (Hin 99%nat ltac:(lia)). rewrite Hlast in Hin. lra.
Qed.

(** *** Monotonicity of the concentration loss *)

Lemma ln_le_compat (x y : real) : 0 < x -> x <= y -> ln x <= ln y.
Proof.
  intros Hx [Hlt | ->]; [left; now apply ln_increasing | right; reflexivity].
Qed.

Lemma clamp_argument_decreasing (l m1 m2 : real) :
  0 < l -> m1 < m2 -> 1 - m2 / l < 1 - m1 / l.
Proof.
  intros Hl Hm.
  assert (m1 / l < m2 / l).
  { unfold Rdiv. apply Rmult_lt_compat_r; [now apply Rinv_0_lt_compat | exact Hm]. }
  lra.
Qed.

(** The loss compares as the clamped currents do. *)
Lemma calc_concentration_loss_compare (p : FuelCellParameters) (i1 i2 : real) :
  universal_constants p -> 0 < T p -> 0 < i_limit p -> i1 < i2 ->
  result_le (calc_concentration_loss (Fin i1) p)
            (calc_concentration_loss (Fin i2) p) /\
  (result_lt (calc_concentration_loss (Fin i1) p)
             (calc_concentration_loss (Fin i2) p)
   <-> i1 < i_limit p - 1e-4).
Proof.
  intros Hc HT Hl Hi.
  rewrite !calc_concentration_loss_fin by assumption.
  unfold result_le, result_lt.
  set (l := i_limit p) in *.
  assert (Hk : 0 < R p * T p / (2 * F p)).
  { destruct Hc as [-> ->]. apply Rdiv_lt_0_compat; lra. }
  set (c := R p * T p / (2 * F p)) in *.
  pose proof (clamp_argument_pos l i1 Hl) as Ha1.
  pose proof (clamp_argument_pos l i2 Hl) as Ha2.
  destruct (Rlt_le_dec i1 (l - 1e-4)) as [Hbelow | Habove].
  - (* the smaller current is not clamped *)
    assert (Hm : Rmin i1 (l - 1e-4) < Rmin i2 (l - 1e-4)).
    { rewrite (Rmin_left i1) by lra.
      unfold Rmin. destruct (Rle_dec i2 (l - 1e-4)); lra. }
    pose proof (clamp_argument_decreasing l _ _ Hl Hm) as Hd.
    pose proof (ln_increasing _ _ Ha2 Hd) as Hln.
    split; [nra | split; [intros _; exact Hbelow | intros _; nra]].
  - (* both currents are clamped to the same value *)
    rewrite (Rmin_right i1) by lra. rewrite (Rmin_right i2) by lra.
    split; [lra | split; lra].
Qed.

(** C6 (amended).  For a parameter set with a temperature in (0, 1e6]
    and a limit between 1e-6 and 1e6, and current densities [i1 < i2] in
    (0, [i_limit]), the concentration loss at [i1] is at most the loss at
    [i2]: the loss never decreases.  It is constant once
    [i1 >= i_limit - 1e-4], where the clamp holds it, and strictly
    increasing below the clamp for currents at least [1e-6 * i_limit]
    apart (and [T >= 1e-6]). *)
Theorem calc_concentration_loss_monotone
  (p : FuelCellParameters) (i1 i2 : real) :
  universal_constants p -> 0 < T p <= 1e6 -> 1e-6 <= i_limit p <= 1e6 ->
  0 < i1 -> i1 < i2 -> i2 < i_limit p ->
  result_le (calc_concentration_loss (Fin i1) p)
            (calc_concentration_loss (Fin i2) p) /\
  (i_limit p - 1e-4 <= i1 ->
   calc_concentration_loss (Fin i1) p = calc_concentration_loss (Fin i2) p) /\
  (1e-6 <= T p -> i1 + 1e-6 * i_limit p <= i2 -> i2 <= i_limit p - 1e-4 ->
   result_lt (calc_concentration_loss (Fin i1) p)
             (calc_concentration_loss (Fin i2) p)).
Proof.
  intros Hc [HT _] [Hl _] _ Hi _.
  assert (Hl0 : 0 < i_limit p) by lra.
  destruct (calc_concentration_loss_compare p i1 i2 Hc HT Hl0 Hi) as [Hle Hiff].
  split; [exact Hle | split].
  - intros Hclamp. rewrite !calc_concentration_loss_fin by assumption.
    rewrite (Rmin_right i1) by lra. rewrite (Rmin_right i2) by lra.
    reflexivity.
  - intros _ Hsep Hbelow. apply Hiff. nra.
Qed.

Lemma calc_concentration_loss_monotone_my_fc :
  result_le (calc_concentration_loss (Fin 0.5) my_fc)
            (calc_concentration_loss (Fin 1.0) my_fc) /\
  (i_limit my_fc - 1e-4 <= 0.5 ->
   calc_concentration_loss (Fin 0.5) my_fc
   = calc_concentration_loss (Fin 1.0) my_fc) /\
  (1e-6 <= T my_fc -> 0.5 + 1e-6 * i_limit my_fc <= 1.0 ->
   1.0 <= i_limit my_fc - 1e-4 ->
   result_lt (calc_concentration_loss (Fin 0.5) my_fc)
             (calc_concentration_loss (Fin 1.0) my_fc)).
Proof.
  apply (calc_concentration_loss_monotone my_fc 0.5 1.0).
  - apply universal_constants_init.
  - simpl. lra.
  - simpl. lra.
  - lra.
  - lra.
  - simpl. lra.
Defined.

(** C6 as stated fails inside the last 1e-4 below the limit: for the
    script's parameters the losses at 1.79995 and 1.79999 are equal. *)
Lemma calc_concentration_loss_flat_near_limit :
  universal_constants my_fc /\ 0 < i_limit my_fc /\
  0 < 1.79995 /\ 1.79995 < 1.79999 /\ 1.79999 < i_limit my_fc /\
  calc_concentration_loss (Fin 1.79995) my_fc
  = calc_concentration_loss (Fin 1.79999) my_fc /\
  ~ result_lt (calc_concentration_loss (Fin 1.79995) my_fc)
              (calc_concentration_loss (Fin 1.79999) my_fc).
Proof.
  assert (Hc : universal_constants my_fc) by apply universal_constants_init.
  assert (Hl : 0 < i_limit my_fc) by (simpl; lra).
  assert (HT : 0 < T my_fc) by (simpl; lra).
  assert (Hi : 1.79995 < 1.79999) by lra.
  destruct (calc_concentration_loss_compare my_fc _ _ Hc HT Hl Hi) as [_ Hiff].
  repeat split; try assumption; try lra; try (simpl; lra).
  - rewrite !calc_concentration_loss_fin by assumption.
    rewrite !Rmin_right by (simpl; lra). reflexivity.
  - intros Hlt. apply Hiff in Hlt. simpl in Hlt. lra.
Qed.

(** *** The Nernst voltage against temperature *)

Lemma calc_nernst_voltage_with_T (p : FuelCellParameters) (t : real) :
  universal_constants p -> 0 < P_H2 p -> 0 < P_O2 p ->
  calc_nernst_voltage (with_T p t) =
  Ret (Fin (1.229 - 0.85e-3 * (t - 298.15)
            + 8.314 * t / (2 * 96485) * ln (P_H2 p * sqrt (P_O2 p)))).
Proof.
  intros [HR HF] Hh Ho.
  rewrite calc_nernst_voltage_fin; cbn [with_T R F T P_H2 P_O2];
    try assumption; try (split; assumption).
  now rewrite HR, HF.
Qed.

(** The slope of the voltage in [T] is [(R/(2F)) ln(P_H2 sqrt(P_O2)) -
    0.85e-3]: the voltage falls with temperature exactly when the pressure
    term stays below the linear correction. *)
Lemma calc_nernst_voltage_slope (p : FuelCellParameters) (T1 T2 : real) :
  universal_constants p -> 0 < P_H2 p -> 0 < P_O2 p -> T1 < T2 ->
  (result_lt (calc_nernst_voltage (with_T p T2))
             (calc_nernst_voltage (with_T p T1))
   <-> 8.314 / (2 * 96485) * ln (P_H2 p * sqrt (P_O2 p)) < 0.85e-3) /\
  (result_lt (calc_nernst_voltage (with_T p T1))
             (calc_nernst_voltage (with_T p T2))
   <-> 0.85e-3 < 8.314 / (2 * 96485) * ln (P_H2 p * sqrt (P_O2 p))).
Proof.
  intros Hc Hh Ho HT.
  rewrite !calc_nernst_voltage_with_T by assumption.
  unfold result_lt.
  set (L := ln (P_H2 p * sqrt (P_O2 p))).
  assert (Hdiff :
    (1.229 - 0.85e-3 * (T2 - 298.15) + 8.314 * T2 / (2 * 96485) * L)
    - (1.229 - 0.85e-3 * (T1 - 298.15) + 8.314 * T1 / (2 * 96485) * L)
    = (T2 - T1) * (8.314 / (2 * 96485) * L - 0.85e-3)) by field.
  set (s := 8.314 / (2 * 96485) * L) in *.
  split; split; intros H; nra.
Qed.

Lemma ln_le_pred (x : real) : 0 < x -> ln x <= x - 1.
Proof.
  intros Hx. pose proof (exp_ineq1_le (ln x)) as H.
  rewrite exp_ln in H by assumption. lra.
Qed.

(** C7 (amended).  For a parameter set with pressures of at least 1e-3
    atm and [P_H2 * sqrt(P_O2) <= 20], and temperatures
    [0 < T1 < T2 <= 1e4] at least 1e-3 K apart, every other field fixed,
    the Nernst voltage at [T2] is strictly below the voltage at [T1]. *)
Theorem calc_nernst_voltage_decreasing
  (p : FuelCellParameters) (T1 T2 : real) :
  universal_constants p -> 1e-3 <= P_H2 p -> 1e-3 <= P_O2 p ->
  P_H2 p * sqrt (P_O2 p) <= 20 ->
  0 < T1 -> T1 + 1e-3 <= T2 -> T2 <= 1e4 ->
  result_lt (calc_nernst_voltage (with_T p T2))
            (calc_nernst_voltage (with_T p T1)).
Proof.
  intros Hc Hh Ho Hsmall _ HT _.
  assert (Hh0 : 0 < P_H2 p) by lra.
  assert (Ho0 : 0 < P_O2 p) by lra.
  destruct (calc_nernst_voltage_slope p T1 T2 Hc Hh0 Ho0 ltac:(lra))
    as [Hdec _].
  apply Hdec.
  assert (Hpos : 0 < P_H2 p * sqrt (P_O2 p)).
  { apply Rmult_lt_0_compat; [assumption | now apply sqrt_lt_R0]. }
  pose proof (ln_le_pred _ Hpos). lra.
Qed.

Lemma calc_nernst_voltage_decreasing_my_fc :
  result_lt (calc_nernst_voltage (with_T my_fc 360))
            (calc_nernst_voltage (with_T my_fc 300)).
Proof.
  apply (calc_nernst_voltage_decreasing my_fc 300 360).
  - apply universal_constants_init.
  - simpl. lra.
  - simpl. lra.
  - simpl. assert (H : sqrt 3.0 <= 2).
    { replace 2 with (sqrt 4) by (replace 4 with (2 * 2) by lra;
                                   apply sqrt_square; lra).
      apply sqrt_le_1; lra. }
    lra.
  - lra.
  - lra.
  - lra.
Defined.

(** C7 as stated fails at high pressure: with [P_H2 = 2^60] atm and
    [P_O2 = 1] atm the voltage at 400 K is above the voltage at 300 K. *)
Lemma calc_nernst_voltage_rises_at_high_pressure :
  universal_constants (init 300 (2 ^ 60) 1) /\
  0 < T (init 300 (2 ^ 60) 1) /\
  0 < P_H2 (init 300 (2 ^ 60) 1) /\
  0 < P_O2 (init 300 (2 ^ 60) 1) /\
  300 < 400 /\
  result_lt (calc_nernst_voltage (with_T (init 300 (2 ^ 60) 1) 300))
            (calc_nernst_voltage (with_T (init 300 (2 ^ 60) 1) 400)) /\
  ~ result_lt (calc_nernst_voltage (with_T (init 300 (2 ^ 60) 1) 400))
              (calc_nernst_voltage (with_T (init 300 (2 ^ 60) 1) 300)).
Proof.
  set (p := init 300 (2 ^ 60) 1).
  assert (Hc : universal_constants p) by apply universal_constants_init.
  assert (Hh : 0 < P_H2 p) by (cbn [p init P_H2]; apply pow_lt; lra).
  assert (Ho : 0 < P_O2 p) by (cbn [p init P_O2]; lra).
  assert (HT : 300 < 400) by lra.
  destruct (calc_nernst_voltage_slope p 300 400 Hc Hh Ho HT) as [Hdec Hinc].
  assert (Hln : 30 < ln (P_H2 p * sqrt (P_O2 p))).
  { cbn [p init P_H2 P_O2]. rewrite sqrt_1, Rmult_1_r.
    rewrite ln_pow by lra.
    replace (INR 60) with 60 by (rewrite INR_IZR_INZ; reflexivity).
    pose proof ln_lt_2. lra. }
  repeat split; try assumption; try (cbn [p init T]; lra).
  - apply Hinc. lra.
  - intros H. apply Hdec in H. lra.
Qed.

(** *** Non-positive pressures *)

Lemma log_pressure_special (h o : real) :
  h <= 0 \/ o <= 0 -> is_finite (log (mul (Fin h) (pow_half o))) = false.
Proof.
  intros Hp. unfold pow_half.
  destruct (total_order_T o 0) as [[Hneg | Hzero] | Hpos].
  - rewrite sgn_neg by assumption. reflexivity.
  - rewrite sgn_zero by assumption. cbn [mul].
    unfold log. rewrite sgn_zero by lra. reflexivity.
  - rewrite sgn_pos by assumption. cbn [mul].
    assert (Hs : 0 < Rpower o (/ 2)) by (unfold Rpower; apply exp_pos).
    destruct Hp as [[Hlt | Heq] | Ho]; [| | lra].
    + rewrite log_neg by nra. reflexivity.
    + unfold log. rewrite sgn_zero by (rewrite Heq; lra). reflexivity.
Qed.

(** C8 (amended).  With [P_H2 <= 0] or [P_O2 <= 0], [calc_nernst_voltage]
    raises nothing: it returns a value, and that value is not a finite
    number (an infinity, a NaN or a complex number). *)
Theorem calc_nernst_voltage_nonpositive_pressure (p : FuelCellParameters) :
  universal_constants p -> P_H2 p <= 0 \/ P_O2 p <= 0 ->
  exists v : num, calc_nernst_voltage p = Ret v /\ is_finite v = false.
Proof.
  intros Hc Hp. unfold calc_nernst_voltage.
  rewrite py_div_ret by now apply two_F_nonzero.
  cbn [bind]. eexists. split; [reflexivity |].
  apply add_fin_special, mul_fin_special. now apply log_pressure_special.
Qed.

Lemma calc_nernst_voltage_nonpositive_pressure_example :
  exists v : num,
    calc_nernst_voltage (init 353 (-1) 3.0) = Ret v /\ is_finite v = false.
Proof.
  apply (calc_nernst_voltage_nonpositive_pressure (init 353 (-1) 3.0)).
  - apply universal_constants_init.
  - left. simpl. lra.
Defined.

(** C8 as stated fails: with [P_H2 = 0] the call returns minus infinity
    and raises nothing. *)
Lemma calc_nernst_voltage_zero_pressure :
  P_H2 (init 353 0 1) <= 0 /\
  calc_nernst_voltage (init 353 0 1) = Ret NInf /\
  forall e : pyexn, calc_nernst_voltage (init 353 0 1) <> Raise e.
Proof.
  assert (H : calc_nernst_voltage (init 353 0 1) = Ret NInf).
  { unfold calc_nernst_voltage. cbn [init R F T P_H2 P_O2].
    rewrite py_div_ret by lra. cbn [bind].
    rewrite pow_half_sqrt by lra. cbn [mul].
    unfold log. rewrite sgn_zero by lra.
    cbn [mul]. rewrite sgn_neg.
    - reflexivity.
    - assert (0 < 8.314 * 353 / (2 * 96485)) by (apply Rdiv_lt_0_compat; lra).
      lra. }
  split; [simpl; lra | split; [exact H |]].
  intros e. rewrite H. discriminate.
Qed.

(** *** The constructor *)

Lemma new_FuelCellParameters_ret
  (args : list real) (kwargs : list (string * real)) (p : FuelCellParameters) :
  new_FuelCellParameters args kwargs = Ret p ->
  exists t h o : real, p = init t h o.
Proof.
  unfold new_FuelCellParameters.
  destruct (_ <? _)%nat; [discriminate |].
  destruct (negb _); [discriminate |].
  destruct (existsb _ kwargs); [discriminate |].
  cbn [zip_with seq init_parameters].
  intros H. injection H as <-. do 3 eexists. reflexivity.
Qed.

Lemma new_FuelCellParameters_unexpected_keyword
  (args : list real) (kwargs : list (string * real)) (k : string) (v : real) :
  In (k, v) kwargs -> is_parameter k = false ->
  new_FuelCellParameters args kwargs = Raise TypeError.
Proof.
  intros Hin Hk. unfold new_FuelCellParameters.
  destruct (_ <? _)%nat; [reflexivity |].
  destruct (forallb _ kwargs) eqn:Hall; [| reflexivity].
  rewrite forallb_forall in Hall. specialize (Hall (k, v) Hin).
  cbn [fst] in Hall. congruence.
Qed.

(** C9 (amended).  The constructor accepts the temperature and the two
    partial pressures, and only them, as optional arguments, by position
    or by keyword, with defaults 353, 1.0 and 1.0.  It does not accept
    the charge-transfer coefficient, the area resistance or the limiting
    current density: passing one by keyword, or a fourth positional
    argument, raises [TypeError].  Every constructed parameter set has
    [alpha = 0.5], [area_resistance = 0.2] and [i_limit = 1.8]. *)
Theorem new_FuelCellParameters_defaults :
  (forall args kwargs p,
     new_FuelCellParameters args kwargs = Ret p ->
     alpha p = 0.5 /\ area_resistance p = 0.2 /\ i_limit p = 1.8) /\
  new_FuelCellParameters [] [] = Ret (init 353 1.0 1.0) /\
  (forall t, new_FuelCellParameters [t] [] = Ret (init t 1.0 1.0)) /\
  (forall t h, new_FuelCellParameters [t; h] [] = Ret (init t h 1.0)) /\
  (forall t h o, new_FuelCellParameters [t; h; o] [] = Ret (init t h o)) /\
  (forall t h o,
     new_FuelCellParameters []
       [("T_kelvin"%string, t); ("P_H2_atm"%string, h); ("P_O2_atm"%string, o)]
     = Ret (init t h o)) /\
  (forall t, new_FuelCellParameters [] [("T_kelvin"%string, t)]
             = Ret (init t 1.0 1.0)) /\
  (forall h, new_FuelCellParameters [] [("P_H2_atm"%string, h)]
             = Ret (init 353 h 1.0)) /\
  (forall o, new_FuelCellParameters [] [("P_O2_atm"%string, o)]
             = Ret (init 353 1.0 o)) /\
  (forall t o, new_FuelCellParameters [t] [("P_O2_atm"%string, o)]
               = Ret (init t 1.0 o)) /\
  (forall args kwargs k v,
     In (k, v) kwargs ->
     k = "alpha"%string \/ k = "area_resistance"%string \/ k = "i_limit"%string ->
     new_FuelCellParameters args kwargs = Raise TypeError) /\
  (forall args kwargs,
     (3 < List.length args)%nat ->
     new_FuelCellParameters args kwargs = Raise TypeError).
Proof.
  split.
  { intros args kwargs p H.
    destruct (new_FuelCellParameters_ret _ _ _ H) as (t & h & o & ->).
    repeat split. }
  do 9 (split; [reflexivity |]).
  split.
  - intros args kwargs k v Hin Hk.
    apply (new_FuelCellParameters_unexpected_keyword args kwargs k v Hin).
    destruct Hk as [-> | [-> | ->]]; reflexivity.
  - intros args kwargs Hlen. unfold new_FuelCellParameters.
    replace (List.length init_parameters) with 3%nat by reflexivity.
    apply Nat.ltb_lt in Hlen. now rewrite Hlen.
Qed.

(** C9 as stated fails: the constructor rejects each of the three cell
    parameters, by keyword and by position. *)
Lemma new_FuelCellParameters_rejects_cell_parameters :
  new_FuelCellParameters [] [("alpha"%string, 0.7)] = Raise TypeError /\
  new_FuelCellParameters [] [("area_resistance"%string, 0.3)] = Raise TypeError /\
  new_FuelCellParameters [] [("i_limit"%string, 2.0)] = Raise TypeError /\
  new_FuelCellParameters [353; 3.0; 3.0; 0.7; 0.3; 2.0] [] = Raise TypeError.
Proof. repeat split. Qed.

(** The script's instance is the constructor called with its three
    arguments by keyword. *)
Lemma my_fc_constructed :
  new_FuelCellParameters []
    [("T_kelvin"%string, 353); ("P_H2_atm"%string, 3.0); ("P_O2_atm"%string, 3.0)]
  = Ret my_fc.
Proof. reflexivity. Qed.

(* ================================================================= *)
(** ** Further properties of the sweep and of the losses *)

(** X1.  The power-density curve of the sweep is, at every index, the
    net voltage times the current density of that index. *)
Theorem simulate_fuel_cell_power_density (p : FuelCellParameters) :
  universal_constants p -> alpha p <> 0 ->
  exists (cd v_cell p_cell : list num) (losses : list (list num)),
    simulate_fuel_cell p = Ret (cd, v_cell, p_cell, losses) /\
    List.length p_cell = 100%nat /\
    forall k, (k < 100)%nat ->
      nth k p_cell NaN = mul (nth k v_cell NaN) (nth k cd NaN).
Proof.
  intros Hc Ha.
  destruct (simulate_fuel_cell_returns p Hc Ha)
    as (E & g_act & g_conc & _ & _ & _ & Hsim).
  cbv zeta in Hsim.
  set (cd := map Fin (np_linspace 0.001 (i_limit p - 0.05) 100)) in *.
  assert (Hlen : List.length cd = 100%nat).
  { unfold cd. now rewrite length_map, np_linspace_length. }
  set (v_cell := zip_with sub _ _) in Hsim.
  assert (Hv : List.length v_cell = 100%nat).
  { unfold v_cell.
    rewrite !zip_with_length; rewrite ?zip_with_length, ?length_map;
      rewrite ?length_map; congruence. }
  exists cd, v_cell. do 2 eexists.
  split; [exact Hsim | split].
  - rewrite zip_with_length; congruence.
  - intros k Hk. apply zip_with_nth; lia.
Qed.

Lemma simulate_fuel_cell_power_density_my_fc :
  exists (cd v_cell p_cell : list num) (losses : list (list num)),
    simulate_fuel_cell my_fc = Ret (cd, v_cell, p_cell, losses) /\
    List.length p_cell = 100%nat /\
    forall k, (k < 100)%nat ->
      nth k p_cell NaN = mul (nth k v_cell NaN) (nth k cd NaN).
Proof.
  apply (simulate_fuel_cell_power_density my_fc).
  - apply universal_constants_init.
  - simpl. lra.
Defined.



(* ================================================================= *)
(** ** The calculators and the sweep in closed form *)

Lemma calc_nernst_voltage_closed (p : FuelCellParameters) :
  universal_constants p -> 0 < P_H2 p -> 0 < P_O2 p ->
  calc_nernst_voltage p = Ret (Fin (Closed.nernst p)).
Proof. intros. now apply calc_nernst_voltage_fin. Qed.

Lemma calc_activation_loss_closed (p : FuelCellParameters) (i : real) :
  universal_constants p -> alpha p <> 0 -> 0 <= i ->
  calc_activation_loss (Fin i) p = Ret (Fin (Closed.activation p i)).
Proof. intros. now apply calc_activation_loss_fin. Qed.

Lemma calc_concentration_loss_closed (p : FuelCellParameters) (i : real) :
  universal_constants p -> 0 < i_limit p ->
  calc_concentration_loss (Fin i) p = Ret (Fin (Closed.concentration p i)).
Proof. intros. now apply calc_concentration_loss_fin. Qed.

Lemma sample_inside (l : real) (k : nat) :
  0.051 < l -> (k < 100)%nat -> 0 < Closed.sample l k < l.
Proof.
  intros Hl Hk.
  destruct (sweep_grid_inside l Hl) as (_ & _ & _ & Hnth & _ & Hin).
  unfold Closed.sample. rewrite <- Hnth by exact Hk. now apply Hin.
Qed.

Lemma sample_increasing (l : real) (j k : nat) :
  0.051 < l -> (j < k)%nat -> Closed.sample l j < Closed.sample l k.
Proof.
  intros Hl Hjk. unfold Closed.sample.
  assert (Hstep : 0 < (l - 0.05 - 0.001) / 99) by (apply Rdiv_lt_0_compat; lra).
  apply lt_INR in Hjk. nra.
Qed.

Lemma sample_below_clamp (l : real) (k : nat) :
  0.051 < l -> (k < 100)%nat -> Closed.sample l k <= l - 0.05.
Proof.
  intros Hl Hk. unfold Closed.sample.
  pose proof (INR_below_100 k Hk) as [H0 H99].
  set (s := (l - 0.05 - 0.001) / 99).
  assert (Hs : 0 < s) by (unfold s; apply Rdiv_lt_0_compat; lra).
  assert (H99s : 99 * s = l - 0.05 - 0.001) by (unfold s; field).
  nra.
Qed.

(** The lengths of the curves of a returning sweep. *)
Lemma simulate_fuel_cell_lengths (p : FuelCellParameters)
  (cd v_cell p_cell : list num) (losses : list (list num)) :
  simulate_fuel_cell p = Ret (cd, v_cell, p_cell, losses) ->
  List.length cd = 100%nat /\
  List.length v_cell = 100%nat /\
  List.length p_cell = 100%nat /\
  exists v_act v_ohmic v_conc : list num,
    losses = [v_act; v_ohmic; v_conc] /\
    List.length v_act = 100%nat /\
    List.length v_ohmic = 100%nat /\
    List.length v_conc = 100%nat.
Proof.
  intros Hsim.
  destruct (simulate_fuel_cell_inv _ _ _ _ _ Hsim)
    as (E & va & vc & _ & Hcd & Hact & Hconc & Hv & Hp & Hls).
  assert (Hlen : List.length cd = 100%nat)
    by (rewrite Hcd; apply sweep_grid_length).
  destruct (mapM_inv _ _ _ Hact) as [Hla _].
  destruct (mapM_inv _ _ _ Hconc) as [Hlc _].
  assert (Hlv : List.length v_cell = 100%nat).
  { rewrite Hv. rewrite !zip_with_length; rewrite ?zip_with_length, ?length_map;
      rewrite ?length_map; congruence. }
  split; [exact Hlen | split; [exact Hlv | split]].
  - rewrite Hp. rewrite zip_with_length; congruence.
  - exists va, (map (fun i => calc_ohmic_loss i p) cd), vc.
    split; [exact Hls |].
    rewrite length_map. repeat split; congruence.
Qed.

(** Entry by entry, a returning sweep holds the calculators at the
    samples of the grid. *)
Lemma simulate_fuel_cell_entries (p : FuelCellParameters)
  (cd v_cell p_cell v_act v_ohmic v_conc : list num) (k : nat) :
  simulate_fuel_cell p = Ret (cd, v_cell, p_cell, [v_act; v_ohmic; v_conc]) ->
  (k < 100)%nat ->
  exists E : num,
    calc_nernst_voltage p = Ret E /\
    nth k cd NaN = Fin (Closed.sample (i_limit p) k) /\
    calc_activation_loss (nth k cd NaN) p = Ret (nth k v_act NaN) /\
    nth k v_ohmic NaN = calc_ohmic_loss (nth k cd NaN) p /\
    calc_concentration_loss (nth k cd NaN) p = Ret (nth k v_conc NaN) /\
    nth k v_cell NaN =
    sub (sub (sub E (nth k v_act NaN)) (nth k v_ohmic NaN)) (nth k v_conc NaN) /\
    nth k p_cell NaN = mul (nth k v_cell NaN) (nth k cd NaN).
Proof.
  intros Hsim Hk.
  destruct (simulate_fuel_cell_lengths _ _ _ _ _ Hsim)
    as (Hlen & Hlv & _ & _).
  destruct (simulate_fuel_cell_inv _ _ _ _ _ Hsim)
    as (E & va & vc & HE & Hcd & Hact & Hconc & Hv & Hp & Hls).
  injection Hls as -> -> ->.
  destruct (mapM_inv _ _ _ Hact) as [Hla Hna].
  destruct (mapM_inv _ _ _ Hconc) as [Hlc Hnc].
  exists E. split; [exact HE |].
  split.
  { rewrite Hcd. rewrite (map_nth_in Fin _ 0 NaN) by (rewrite np_linspace_length; lia).
    now rewrite sweep_grid_nth. }
  split; [apply Hna; lia |].
  split; [apply (map_nth_in (fun i => calc_ohmic_loss i p) cd NaN NaN k); lia |].
  split; [apply Hnc; lia |].
  split.
  - rewrite Hv.
    rewrite (zip_with_nth sub _ _ NaN NaN NaN);
      [| rewrite zip_with_length; rewrite !length_map; lia | lia].
    rewrite (zip_with_nth sub _ _ NaN NaN NaN) by (rewrite !length_map; lia).
    rewrite (map_nth_in (sub E) _ NaN NaN) by lia.
    reflexivity.
  - rewrite Hp. apply zip_with_nth; lia.
Qed.

(** With positive pressures, a non-zero Tafel divisor and a limit above
    0.051 every entry of the sweep is the finite closed-form value. *)
Lemma simulate_fuel_cell_closed (p : FuelCellParameters)
  (cd v_cell p_cell v_act v_ohmic v_conc : list num) (k : nat) :
  universal_constants p -> alpha p <> 0 ->
  0 < P_H2 p -> 0 < P_O2 p -> 0.051 < i_limit p ->
  simulate_fuel_cell p = Ret (cd, v_cell, p_cell, [v_act; v_ohmic; v_conc]) ->
  (k < 100)%nat ->
  let x := Closed.sample (i_limit p) k in
  nth k cd NaN = Fin x /\
  nth k v_act NaN = Fin (Closed.activation p x) /\
  nth k v_ohmic NaN = Fin (Closed.ohmic p x) /\
  nth k v_conc NaN = Fin (Closed.concentration p x) /\
  nth k v_cell NaN = Fin (Closed.cell_voltage p x) /\
  nth k p_cell NaN = Fin (Closed.cell_voltage p x * x).
Proof.
  intros Hc Ha Hh Ho Hl Hsim Hk x.
  destruct (simulate_fuel_cell_entries _ _ _ _ _ _ _ k Hsim Hk)
    as (E & HE & Hx & Hact & Hohm & Hconc & Hv & Hp).
  fold x in Hx.
  pose proof (sample_inside (i_limit p) k Hl Hk) as [Hx0 HxL]. fold x in Hx0, HxL.
  rewrite calc_nernst_voltage_closed in HE by assumption.
  apply Ret_inj in HE. subst E.
  rewrite Hx in Hact, Hohm, Hconc, Hp.
  rewrite calc_activation_loss_closed in Hact by (assumption || lra).
  rewrite calc_concentration_loss_closed in Hconc by (assumption || lra).
  apply Ret_inj in Hact, Hconc.
  rewrite <- Hact, <- Hconc, Hohm in Hv.
  assert (Hvk : nth k v_cell NaN = Fin (Closed.cell_voltage p x)).
  { rewrite Hv. unfold calc_ohmic_loss, sub. cbn [mul neg add].
    unfold Closed.cell_voltage, Closed.ohmic. f_equal. }
  split; [exact Hx | split; [now symmetry | split]].
  - rewrite Hohm. reflexivity.
  - split; [now symmetry | split; [exact Hvk |]].
    rewrite Hp, Hvk. reflexivity.
Qed.

(* ================================================================= *)
(** ** Further properties of the Nernst voltage *)

Lemma ln_neg_iff (x : real) : 0 < x -> (ln x < 0 <-> x < 1).
Proof.
  intros Hx. rewrite <- ln_1. split; intros H.
  - apply ln_lt_inv; [assumption | lra | exact H].
  - now apply ln_increasing.
Qed.

Lemma ln_zero_iff (x : real) : 0 < x -> (ln x = 0 <-> x = 1).
Proof.
  intros Hx. rewrite <- ln_1. split; intros H.
  - apply ln_inv; [assumption | lra | exact H].
  - now rewrite H.
Qed.

Lemma ln_pos_iff (x : real) : 0 < x -> (0 < ln x <-> 1 < x).
Proof.
  intros Hx. rewrite <- ln_1. split; intros H.
  - apply ln_lt_inv; [lra | assumption | exact H].
  - apply ln_increasing; lra.
Qed.

Lemma pressure_product_le (h1 h2 o1 o2 : real) :
  0 < h1 -> h1 <= h2 -> 0 < o1 -> o1 <= o2 ->
  0 < h1 * sqrt o1 /\ h1 * sqrt o1 <= h2 * sqrt o2.
Proof.
  intros Hh1 Hh Ho1 Ho.
  assert (Hs1 : 0 < sqrt o1) by now apply sqrt_lt_R0.
  assert (Hs : sqrt o1 <= sqrt o2) by (apply sqrt_le_1; lra).
  split; [now apply Rmult_lt_0_compat | nra].
Qed.

(** X3.  At a temperature in (0, 1e4] and with pressures between 1e-3
    and 1e3 atm, the Nernst voltage does not fall when the partial
    pressures rise: raising either one, the other not lowered, gives an
    open-circuit voltage at least as high. *)
Theorem calc_nernst_voltage_pressure_increasing
  (p : FuelCellParameters) (h1 h2 o1 o2 : real) :
  universal_constants p -> 0 < T p <= 1e4 ->
  1e-3 <= h1 -> h1 <= h2 -> h2 <= 1e3 ->
  1e-3 <= o1 -> o1 <= o2 -> o2 <= 1e3 ->
  result_le (calc_nernst_voltage (with_pressures p h1 o1))
            (calc_nernst_voltage (with_pressures p h2 o2)).
Proof.
  intros Hc [HT _] Hh1 Hh _ Ho1 Ho _.
  assert (Hc1 : universal_constants (with_pressures p h1 o1)) by exact Hc.
  assert (Hc2 : universal_constants (with_pressures p h2 o2)) by exact Hc.
  rewrite (calc_nernst_voltage_fin _ Hc1) by (cbn [with_pressures P_H2 P_O2]; lra).
  rewrite (calc_nernst_voltage_fin _ Hc2) by (cbn [with_pressures P_H2 P_O2]; lra).
  cbn [with_pressures R F T P_H2 P_O2]. unfold result_le.
  destruct (pressure_product_le h1 h2 o1 o2 ltac:(lra) Hh ltac:(lra) Ho)
    as [Hpos Hle].
  pose proof (ln_le_compat _ _ Hpos Hle) as Hln.
  assert (Hk : 0 < R p * T p / (2 * F p)).
  { destruct Hc as [-> ->]. apply Rdiv_lt_0_compat; lra. }
  nra.
Qed.

Lemma calc_nernst_voltage_pressure_increasing_my_fc :
  result_le (calc_nernst_voltage (with_pressures my_fc 1.0 0.21))
            (calc_nernst_voltage (with_pressures my_fc 3.0 3.0)).
Proof.
  apply (calc_nernst_voltage_pressure_increasing my_fc 1.0 3.0 0.21 3.0).
  - apply universal_constants_init.
  - simpl. lra.
  - lra.
  - lra.
  - lra.
  - lra.
  - lra.
  - lra.
Defined.

(** X4.  With positive pressures the returned voltage is the equation of
    the docstring, [E0 - (RT/2F) * ln(1 / (P_H2 * P_O2^0.5))], its [E0]
    being the standard potential corrected for temperature,
    [1.229 - 0.85e-3 * (T - 298.15)]. *)
Theorem calc_nernst_voltage_docstring (p : FuelCellParameters) :
  universal_constants p -> 0 < P_H2 p -> 0 < P_O2 p ->
  calc_nernst_voltage p =
  Ret (Fin ((1.229 - 0.85e-3 * (T p - 298.15))
            - R p * T p / (2 * F p)
              * ln (1 / (P_H2 p * Rpower (P_O2 p) 0.5)))).
Proof.
  intros Hc Hh Ho. rewrite calc_nernst_voltage_fin by assumption.
  replace 0.5 with (/ 2) by lra. rewrite Rpower_sqrt by assumption.
  assert (Hpos : 0 < P_H2 p * sqrt (P_O2 p)).
  { apply Rmult_lt_0_compat; [assumption | now apply sqrt_lt_R0]. }
  replace (1 / (P_H2 p * sqrt (P_O2 p))) with (/ (P_H2 p * sqrt (P_O2 p)))
    by (unfold Rdiv; ring).
  rewrite ln_Rinv by exact Hpos.
  do 2 f_equal. lra.
Qed.

Lemma calc_nernst_voltage_docstring_my_fc :
  calc_nernst_voltage my_fc =
  Ret (Fin ((1.229 - 0.85e-3 * (T my_fc - 298.15))
            - R my_fc * T my_fc / (2 * F my_fc)
              * ln (1 / (P_H2 my_fc * Rpower (P_O2 my_fc) 0.5)))).
Proof.
  apply (calc_nernst_voltage_docstring my_fc).
  - apply universal_constants_init.
  - simpl. lra.
  - simpl. lra.
Defined.



(* ================================================================= *)
(** ** Further properties of the losses *)

Lemma tafel_factor_pos (p : FuelCellParameters) :
  universal_constants p -> 0 < T p -> 0 < alpha p ->
  0 < R p * T p / (2 * alpha p * F p).
Proof.
  intros [HR HF] HT Ha. rewrite HR, HF. apply Rdiv_lt_0_compat; nra.
Qed.

Lemma conc_factor_pos (p : FuelCellParameters) :
  universal_constants p -> 0 < T p -> 0 < R p * T p / (2 * F p).
Proof.
  intros [HR HF] HT. rewrite HR, HF. apply Rdiv_lt_0_compat; lra.
Qed.





Lemma clamp_sign (l i : real) :
  1e-4 < l ->
  (0 < Rmin i (l - 1e-4) <-> 0 < i) /\
  (Rmin i (l - 1e-4) = 0 <-> i = 0) /\
  (Rmin i (l - 1e-4) < 0 <-> i < 0).
Proof.
  intros Hl. unfold Rmin.
  destruct (Rle_dec i (l - 1e-4)); repeat split; intros H; lra.
Qed.

(** The concentration loss has the sign of the current density. *)
Lemma concentration_sign (p : FuelCellParameters) (i : real) :
  universal_constants p -> 0 < T p -> 1e-4 < i_limit p ->
  (0 < Closed.concentration p i <-> 0 < i) /\
  (Closed.concentration p i = 0 <-> i = 0) /\
  (Closed.concentration p i < 0 <-> i < 0).
Proof.
  intros Hc HT Hl. unfold Closed.concentration.
  pose proof (conc_factor_pos p Hc HT) as Hk.
  set (c := R p * T p / (2 * F p)) in *.
  assert (Hl0 : 0 < i_limit p) by lra.
  pose proof (clamp_argument_pos (i_limit p) i Hl0) as Harg.
  destruct (clamp_sign (i_limit p) i Hl) as (Hmpos & Hmzero & Hmneg).
  set (m := Rmin i (i_limit p - 1e-4)) in *.
  assert (Hdiv : forall x, 0 < x / i_limit p <-> 0 < x).
  { intros x. split; intros H.
    - apply Rmult_lt_reg_r with (/ i_limit p);
        [now apply Rinv_0_lt_compat | unfold Rdiv in H; lra].
    - now apply Rdiv_lt_0_compat. }
  assert (Hdiv0 : m / i_limit p = 0 <-> m = 0).
  { split; intros H; [| rewrite H; unfold Rdiv; ring].
    destruct (Rtotal_order m 0) as [Hlt | [Heq | Hgt]]; [| exact Heq |].
    - assert (0 < (- m) / i_limit p) by (apply Hdiv; lra).
      unfold Rdiv in *. lra.
    - apply Hdiv in Hgt. lra. }
  assert (Hdivn : m / i_limit p < 0 <-> m < 0).
  { split; intros H.
    - destruct (Rtotal_order m 0) as [Hlt | [Heq | Hgt]]; [exact Hlt | |].
      + rewrite Heq in H. unfold Rdiv in H. lra.
      + apply Hdiv in Hgt. lra.
    - assert (0 < (- m) / i_limit p) by (apply Hdiv; lra).
      unfold Rdiv in *. lra. }
  pose proof (ln_neg_iff _ Harg) as Hneg.
  pose proof (ln_zero_iff _ Harg) as Hzero.
  pose proof (ln_pos_iff _ Harg) as Hpos.
  set (q := m / i_limit p) in *.
  split; [| split]; split; intros H.
  - apply Hmpos. apply Hdiv. fold q.
    assert (ln (1 - q) < 0) by nra. apply Hneg in H0. lra.
  - apply Hmpos, Hdiv in H. fold q in H.
    assert (ln (1 - q) < 0) by (apply Hneg; lra). nra.
  - apply Hmzero. apply Hdiv0.
    assert (ln (1 - q) = 0) by nra. apply Hzero in H0. lra.
  - apply Hmzero, Hdiv0 in H. rewrite H.
    replace (1 - 0) with 1 by lra. rewrite ln_1. ring.
  - apply Hmneg. apply Hdivn.
    assert (0 < ln (1 - q)) by nra. apply Hpos in H0. lra.
  - apply Hmneg, Hdivn in H.
    assert (0 < ln (1 - q)) by (apply Hpos; lra). nra.
Qed.

(** X7.  For a temperature in (0, 1e6], a limit between 1e-4 and 1e6
    and a current density of at least -1e6, the concentration loss is a
    finite number that is not negative when the current density is not
    negative and, with no floor applied, not positive when the current
    density is not positive; at [i = 0] it is zero. *)
Theorem calc_concentration_loss_sign (p : FuelCellParameters) (i : real) :
  universal_constants p -> 0 < T p <= 1e6 -> 1e-4 <= i_limit p <= 1e6 ->
  -1e6 <= i ->
  exists v : real,
    calc_concentration_loss (Fin i) p = Ret (Fin v) /\
    (0 <= i -> 0 <= v) /\ (i <= 0 -> v <= 0).
Proof.
  intros Hc [HT _] [Hl _] _. exists (Closed.concentration p i).
  assert (Hl0 : 0 < i_limit p) by lra.
  split; [now apply calc_concentration_loss_closed |].
  unfold Closed.concentration.
  pose proof (conc_factor_pos p Hc HT) as Hk.
  set (c := R p * T p / (2 * F p)) in *.
  pose proof (clamp_argument_pos (i_limit p) i Hl0) as Harg.
  set (m := Rmin i (i_limit p - 1e-4)) in *.
  assert (Hinv : 0 < / i_limit p) by now apply Rinv_0_lt_compat.
  split; intros Hi.
  - assert (Hm : 0 <= m) by (unfold m; apply Rmin_glb; lra).
    assert (Hq : 0 <= m / i_limit p) by (unfold Rdiv; nra).
    pose proof (ln_le_compat _ 1 Harg ltac:(lra)) as Hln.
    rewrite ln_1 in Hln. nra.
  - assert (Hm : m <= 0)
      by (unfold m; apply Rle_trans with i; [apply Rmin_l | exact Hi]).
    assert (Hq : m / i_limit p <= 0) by (unfold Rdiv; nra).
    pose proof (ln_le_compat 1 (1 - m / i_limit p) ltac:(lra) ltac:(lra)) as Hln.
    rewrite ln_1 in Hln. nra.
Qed.

Lemma calc_concentration_loss_sign_my_fc :
  exists v : real,
    calc_concentration_loss (Fin (-0.5)) my_fc = Ret (Fin v) /\
    (0 <= -0.5 -> 0 <= v) /\ (-0.5 <= 0 -> v <= 0).
Proof.
  apply (calc_concentration_loss_sign my_fc (-0.5)).
  - apply universal_constants_init.
  - simpl. lra.
  - simpl. lra.
  - lra.
Defined.

(** X8.  For a temperature in (0, 1e6], a limit between 1e-6 and 1e6
    and a current density of at least -1e6, the concentration loss is at
    most the loss at the limit itself, and equals it from
    [i_limit - 1e-4] on: the clamp caps the loss. *)
Theorem calc_concentration_loss_bounded (p : FuelCellParameters) (i : real) :
  universal_constants p -> 0 < T p <= 1e6 -> 1e-6 <= i_limit p <= 1e6 ->
  -1e6 <= i ->
  result_le (calc_concentration_loss (Fin i) p)
            (calc_concentration_loss (Fin (i_limit p)) p) /\
  (i_limit p - 1e-4 <= i ->
   calc_concentration_loss (Fin i) p
   = calc_concentration_loss (Fin (i_limit p)) p).
Proof.
  intros Hc [HT _] [Hl _] _.
  assert (Hl0 : 0 < i_limit p) by lra.
  assert (Hsat : i_limit p - 1e-4 <= i ->
                 calc_concentration_loss (Fin i) p
                 = calc_concentration_loss (Fin (i_limit p)) p).
  { intros Hi. rewrite !calc_concentration_loss_fin by assumption.
    rewrite (Rmin_right i) by lra. rewrite (Rmin_right (i_limit p)) by lra.
    reflexivity. }
  split; [| exact Hsat].
  destruct (Rlt_le_dec i (i_limit p - 1e-4)) as [Hbelow | Habove].
  - assert (Hlt : i < i_limit p) by lra.
    now destruct (calc_concentration_loss_compare p i (i_limit p) Hc HT Hl0 Hlt).
  - rewrite (Hsat Habove). rewrite calc_concentration_loss_fin by assumption.
    unfold result_le. lra.
Qed.

Lemma calc_concentration_loss_bounded_my_fc :
  result_le (calc_concentration_loss (Fin 1.0) my_fc)
            (calc_concentration_loss (Fin (i_limit my_fc)) my_fc) /\
  (i_limit my_fc - 1e-4 <= 1.0 ->
   calc_concentration_loss (Fin 1.0) my_fc
   = calc_concentration_loss (Fin (i_limit my_fc)) my_fc).
Proof.
  apply (calc_concentration_loss_bounded my_fc 1.0).
  - apply universal_constants_init.
  - simpl. lra.
  - simpl. lra.
  - lra.
Defined.

(* ================================================================= *)
(** ** Further properties of the sweep *)

Lemma simulate_fuel_cell_returns_curves (p : FuelCellParameters) :
  universal_constants p -> alpha p <> 0 ->
  exists (cd v_cell p_cell v_act v_ohmic v_conc : list num),
    simulate_fuel_cell p = Ret (cd, v_cell, p_cell, [v_act; v_ohmic; v_conc]).
Proof.
  intros Hc Ha.
  destruct (simulate_fuel_cell_returns p Hc Ha)
    as (E & g_act & g_conc & _ & _ & _ & Hsim).
  cbv zeta in Hsim. do 6 eexists. exact Hsim.
Qed.

(** X9.  For a parameter set whose fields are finite floats, the
    universal constants in place, the sweep raises exactly when
    [alpha = 0], and then it is a [ZeroDivisionError]: no float value of
    the temperature, a pressure, the resistance or the limiting current
    makes it raise. *)
Theorem simulate_fuel_cell_raises_iff (p : FuelCellParameters) :
  universal_constants p ->
  ((exists e, simulate_fuel_cell p = Raise e) <-> alpha p = 0) /\
  (forall e, simulate_fuel_cell p = Raise e -> e = ZeroDivisionError).
Proof.
  intros Hc.
  destruct (Req_dec (alpha p) 0) as [Hz | Hnz].
  - pose proof (simulate_fuel_cell_zero_alpha p Hc Hz) as Hr.
    split.
    + split; [intros _; exact Hz | intros _; eexists; exact Hr].
    + intros e He. congruence.
  - destruct (simulate_fuel_cell_grid p Hc Hnz) as (v & pw & ls & Hsim).
    split.
    + split; [intros [e He]; congruence | intros Hz; contradiction].
    + intros e He. congruence.
Qed.

Lemma simulate_fuel_cell_raises_iff_zero_alpha :
  ((exists e, simulate_fuel_cell (with_alpha my_fc 0) = Raise e)
   <-> alpha (with_alpha my_fc 0) = 0) /\
  (forall e, simulate_fuel_cell (with_alpha my_fc 0) = Raise e ->
             e = ZeroDivisionError).
Proof.
  apply (simulate_fuel_cell_raises_iff (with_alpha my_fc 0)).
  split; reflexivity.
Defined.

(** X10.  Whatever the parameter set, the sequences of a returning sweep
    are index-aligned: the current densities, the net voltages, the
    power densities and each of the three loss curves have 100 entries,
    and the breakdown holds exactly three curves. *)
Theorem simulate_fuel_cell_shapes (p : FuelCellParameters)
  (cd v_cell p_cell : list num) (losses : list (list num)) :
  simulate_fuel_cell p = Ret (cd, v_cell, p_cell, losses) ->
  List.length cd = 100%nat /\
  List.length v_cell = 100%nat /\
  List.length p_cell = 100%nat /\
  List.length losses = 3%nat /\
  Forall (fun curve => List.length curve = 100%nat) losses.
Proof.
  intros Hsim.
  destruct (simulate_fuel_cell_lengths _ _ _ _ _ Hsim)
    as (Hcd & Hv & Hp & va & vo & vc & -> & Hva & Hvo & Hvc).
  repeat split; try assumption.
  repeat constructor; assumption.
Qed.

Lemma simulate_fuel_cell_shapes_my_fc :
  exists (cd v_cell p_cell : list num) (losses : list (list num)),
    simulate_fuel_cell my_fc = Ret (cd, v_cell, p_cell, losses) /\
    List.length cd = 100%nat /\
    List.length v_cell = 100%nat /\
    List.length p_cell = 100%nat /\
    List.length losses = 3%nat /\
    Forall (fun curve => List.length curve = 100%nat) losses.
Proof.
  destruct (simulate_fuel_cell_grid my_fc) as (v & pw & ls & Hsim).
  - apply universal_constants_init.
  - simpl. lra.
  - do 4 eexists. split; [exact Hsim |].
    exact (simulate_fuel_cell_shapes my_fc _ _ _ _ Hsim).
Defined.

(** X11.  For a parameter set in the working range ([T] in [1, 1e4],
    pressures in [1e-3, 1e3], [alpha] in [1e-2, 1], [area_resistance] in
    [0, 1e3], [i_limit] in [0.06, 1e3]), every entry of every curve the
    sweep returns is a finite number: no infinity and no NaN reaches the
    output. *)
Theorem simulate_fuel_cell_finite (p : FuelCellParameters) :
  working_range p ->
  exists (cd v_cell p_cell v_act v_ohmic v_conc : list num),
    simulate_fuel_cell p = Ret (cd, v_cell, p_cell, [v_act; v_ohmic; v_conc]) /\
    forall k, (k < 100)%nat ->
      is_finite (nth k cd NaN) = true /\
      is_finite (nth k v_cell NaN) = true /\
      is_finite (nth k p_cell NaN) = true /\
      is_finite (nth k v_act NaN) = true /\
      is_finite (nth k v_ohmic NaN) = true /\
      is_finite (nth k v_conc NaN) = true.
Proof.
  intros (Hc & _ & [Hh _] & [Ho _] & [Ha _] & _ & [Hl _]).
  assert (Ha' : alpha p <> 0) by lra.
  destruct (simulate_fuel_cell_returns_curves p Hc Ha')
    as (cd & v & pw & va & vo & vc & Hsim).
  exists cd, v, pw, va, vo, vc. split; [exact Hsim |].
  intros k Hk.
  destruct (simulate_fuel_cell_closed p _ _ _ _ _ _ k Hc Ha'
              ltac:(lra) ltac:(lra) ltac:(lra) Hsim Hk)
    as (-> & -> & -> & -> & -> & ->).
  repeat split.
Qed.

Lemma simulate_fuel_cell_finite_my_fc :
  exists (cd v_cell p_cell v_act v_ohmic v_conc : list num),
    simulate_fuel_cell my_fc
    = Ret (cd, v_cell, p_cell, [v_act; v_ohmic; v_conc]) /\
    forall k, (k < 100)%nat ->
      is_finite (nth k cd NaN) = true /\
      is_finite (nth k v_cell NaN) = true /\
      is_finite (nth k p_cell NaN) = true /\
      is_finite (nth k v_act NaN) = true /\
      is_finite (nth k v_ohmic NaN) = true /\
      is_finite (nth k v_conc NaN) = true.
Proof.
  apply (simulate_fuel_cell_finite my_fc).
  repeat split; simpl; lra.
Defined.

Lemma activation_monotone (p : FuelCellParameters) (i1 i2 : real) :
  universal_constants p -> 0 < T p -> 0 < alpha p -> 0 <= i1 -> i1 <= i2 ->
  Closed.activation p i1 <= Closed.activation p i2.
Proof.
  intros Hc HT Ha Hi1 Hi. unfold Closed.activation.
  pose proof (tafel_factor_pos p Hc HT Ha) as Hk.
  set (c := R p * T p / (2 * alpha p * F p)) in *.
  assert (Hln : ln ((i1 + 1e-6) / 1e-3) <= ln ((i2 + 1e-6) / 1e-3)).
  { apply ln_le_compat; [now apply tafel_argument_pos |].
    unfold Rdiv. apply Rmult_le_compat_r; lra. }
  apply Rmax_lub; [apply Rmax_l |].
  apply Rle_trans with (c * ln ((i2 + 1e-6) / 1e-3)); [nra | apply Rmax_r].
Qed.

Lemma concentration_increasing (p : FuelCellParameters) (i1 i2 : real) :
  universal_constants p -> 0 < T p -> 0 < i_limit p ->
  i1 < i2 -> i1 < i_limit p - 1e-4 ->
  Closed.concentration p i1 < Closed.concentration p i2.
Proof.
  intros Hc HT Hl Hi Hbelow.
  destruct (calc_concentration_loss_compare p i1 i2 Hc HT Hl Hi) as [_ Hiff].
  rewrite !calc_concentration_loss_fin in Hiff by assumption.
  unfold result_lt in Hiff. now apply Hiff.
Qed.

(** X12.  For a parameter set in the working range, the polarization
    curve does not rise: along the sweep the net voltage at each sample
    is at most the net voltage at every earlier one. *)
Theorem simulate_fuel_cell_voltage_decreasing (p : FuelCellParameters) :
  working_range p ->
  exists (cd v_cell p_cell v_act v_ohmic v_conc : list num),
    simulate_fuel_cell p = Ret (cd, v_cell, p_cell, [v_act; v_ohmic; v_conc]) /\
    forall j k, (j < k)%nat -> (k < 100)%nat ->
      fin_le (nth k v_cell NaN) (nth j v_cell NaN).
Proof.
  intros (Hc & [HT1 _] & [Hh1 _] & [Ho1 _] & [Ha1 _] & [Har _] & [Hl1 _]).
  assert (HT : 0 < T p) by lra.
  assert (Ha : 0 < alpha p) by lra.
  assert (Hh : 0 < P_H2 p) by lra.
  assert (Ho : 0 < P_O2 p) by lra.
  assert (Hl : 0.051 < i_limit p) by lra.
  assert (Ha' : alpha p <> 0) by lra.
  destruct (simulate_fuel_cell_returns_curves p Hc Ha')
    as (cd & v & pw & va & vo & vc & Hsim).
  exists cd, v, pw, va, vo, vc. split; [exact Hsim |].
  intros j k Hjk Hk.
  destruct (simulate_fuel_cell_closed p _ _ _ _ _ _ k Hc Ha' Hh Ho Hl Hsim Hk)
    as (_ & _ & _ & _ & -> & _).
  destruct (simulate_fuel_cell_closed p _ _ _ _ _ _ j Hc Ha' Hh Ho Hl Hsim
              ltac:(lia)) as (_ & _ & _ & _ & -> & _).
  unfold fin_le, Closed.cell_voltage, Closed.ohmic.
  pose proof (sample_inside (i_limit p) j Hl ltac:(lia)) as [Hj0 _].
  pose proof (sample_increasing (i_limit p) j k Hl Hjk) as Hlt.
  pose proof (sample_below_clamp (i_limit p) k Hl Hk) as Hkmax.
  set (xj := Closed.sample (i_limit p) j) in *.
  set (xk := Closed.sample (i_limit p) k) in *.
  pose proof (activation_monotone p xj xk Hc HT Ha ltac:(lra) ltac:(lra)) as Hact.
  pose proof (concentration_increasing p xj xk Hc HT ltac:(lra) Hlt ltac:(lra))
    as Hconc.
  nra.
Qed.

Lemma simulate_fuel_cell_voltage_decreasing_my_fc :
  exists (cd v_cell p_cell v_act v_ohmic v_conc : list num),
    simulate_fuel_cell my_fc
    = Ret (cd, v_cell, p_cell, [v_act; v_ohmic; v_conc]) /\
    forall j k, (j < k)%nat -> (k < 100)%nat ->
      fin_le (nth k v_cell NaN) (nth j v_cell NaN).
Proof.
  apply (simulate_fuel_cell_voltage_decreasing my_fc).
  repeat split; simpl; lra.
Defined.

(** X13.  For a parameter set in the working range, the net voltage is
    at most the open-circuit voltage at every sample of the sweep: the
    three losses only take voltage away. *)
Theorem simulate_fuel_cell_below_open_circuit (p : FuelCellParameters) :
  working_range p ->
  exists (E_nernst : num) (cd v_cell p_cell v_act v_ohmic v_conc : list num),
    calc_nernst_voltage p = Ret E_nernst /\
    simulate_fuel_cell p = Ret (cd, v_cell, p_cell, [v_act; v_ohmic; v_conc]) /\
    forall k, (k < 100)%nat -> fin_le (nth k v_cell NaN) E_nernst.
Proof.
  intros (Hc & [HT1 _] & [Hh1 _] & [Ho1 _] & [Ha1 _] & [Har _] & [Hl1 _]).
  assert (HT : 0 < T p) by lra.
  assert (Hh : 0 < P_H2 p) by lra.
  assert (Ho : 0 < P_O2 p) by lra.
  assert (Hl : 0.051 < i_limit p) by lra.
  assert (Ha' : alpha p <> 0) by lra.
  destruct (simulate_fuel_cell_returns_curves p Hc Ha')
    as (cd & v & pw & va & vo & vc & Hsim).
  exists (Fin (Closed.nernst p)), cd, v, pw, va, vo, vc.
  split; [now apply calc_nernst_voltage_closed | split; [exact Hsim |]].
  intros k Hk.
  destruct (simulate_fuel_cell_closed p _ _ _ _ _ _ k Hc Ha' Hh Ho Hl Hsim Hk)
    as (_ & _ & _ & _ & -> & _).
  unfold fin_le, Closed.cell_voltage, Closed.ohmic.
  pose proof (sample_inside (i_limit p) k Hl Hk) as [Hx0 _].
  set (x := Closed.sample (i_limit p) k) in *.
  assert (Hact : 0 <= Closed.activation p x) by apply Rmax_l.
  destruct (concentration_sign p x Hc HT ltac:(lra)) as [Hpos _].
  apply Hpos in Hx0 as Hconc.
  nra.
Qed.

Lemma simulate_fuel_cell_below_open_circuit_my_fc :
  exists (E_nernst : num) (cd v_cell p_cell v_act v_ohmic v_conc : list num),
    calc_nernst_voltage my_fc = Ret E_nernst /\
    simulate_fuel_cell my_fc
    = Ret (cd, v_cell, p_cell, [v_act; v_ohmic; v_conc]) /\
    forall k, (k < 100)%nat -> fin_le (nth k v_cell NaN) E_nernst.
Proof.
  apply (simulate_fuel_cell_below_open_circuit my_fc).
  repeat split; simpl; lra.
Defined.

Lemma Rmax_0_scale (u t1 t2 : real) :
  0 < t1 -> t1 <= t2 -> Rmax 0 (t1 * u) <= Rmax 0 (t2 * u).
Proof.
  intros H1 H12. apply Rmax_lub; [apply Rmax_l |].
  destruct (Rle_lt_dec 0 u) as [Hu | Hu].
  - apply Rle_trans with (t2 * u); [nra | apply Rmax_r].
  - apply Rle_trans with 0; [nra | apply Rmax_l].
Qed.

(** At a fixed current density in (0, i_limit) the closed-form cell
    voltage falls when the temperature rises, as long as the pressure
    term of the Nernst voltage does not outgrow its linear correction. *)
Lemma cell_voltage_temperature (p : FuelCellParameters) (T1 T2 x : real) :
  universal_constants p -> 0 < T1 -> T1 < T2 -> 0 < alpha p ->
  0 < P_H2 p -> 0 < P_O2 p ->
  8.314 / (2 * 96485) * ln (P_H2 p * sqrt (P_O2 p)) <= 0.85e-3 ->
  1e-4 < i_limit p -> 0 < x ->
  Closed.cell_voltage (with_T p T2) x < Closed.cell_voltage (with_T p T1) x.
Proof.
  intros Hc HT1 HT Ha Hh Ho Hslope Hl Hx.
  assert (Hc1 : universal_constants (with_T p T1)) by exact Hc.
  destruct (concentration_sign (with_T p T1) x Hc1 HT1 Hl) as [Hpos _].
  apply Hpos in Hx as Hconc. clear Hpos.
  unfold Closed.cell_voltage, Closed.nernst, Closed.activation,
    Closed.ohmic, Closed.concentration in *.
  cbn [with_T R F T P_H2 P_O2 alpha area_resistance i_limit] in *.
  destruct Hc as [HR HF]. rewrite HR, HF in *.
  set (Lp := ln (P_H2 p * sqrt (P_O2 p))) in *.
  set (lq := ln (1 - Rmin x (i_limit p - 1e-4) / i_limit p)) in *.
  set (la := ln ((x + 1e-6) / 1e-3)).
  set (g := 8.314 / (2 * alpha p * 96485)).
  assert (Hg : 0 < g) by (unfold g; apply Rdiv_lt_0_compat; nra).
  assert (Hact : Rmax 0 (8.314 * T1 / (2 * alpha p * 96485) * la)
                 <= Rmax 0 (8.314 * T2 / (2 * alpha p * 96485) * la)).
  { replace (8.314 * T1 / (2 * alpha p * 96485) * la) with (T1 * (g * la))
      by (unfold g; field; lra).
    replace (8.314 * T2 / (2 * alpha p * 96485) * la) with (T2 * (g * la))
      by (unfold g; field; lra).
    apply Rmax_0_scale; lra. }
  assert (Hlq : lq < 0).
  { assert (0 < 8.314 * T1 / (2 * 96485)) by (apply Rdiv_lt_0_compat; lra).
    nra. }
  assert (Hconc2 : - (8.314 * T1 / (2 * 96485)) * lq
                   < - (8.314 * T2 / (2 * 96485)) * lq) by nra.
  assert (Hnernst :
    1.229 - 0.85e-3 * (T2 - 298.15) + 8.314 * T2 / (2 * 96485) * Lp
    <= 1.229 - 0.85e-3 * (T1 - 298.15) + 8.314 * T1 / (2 * 96485) * Lp) by nra.
  lra.
Qed.

(** X14.  For a parameter set that is in the working range at both
    temperatures, with [P_H2 * sqrt(P_O2) <= 20], raising the temperature
    by at least 1e-3 K lowers the net voltage at every sample of the
    sweep, over an unchanged grid. *)
Theorem simulate_fuel_cell_temperature
  (p : FuelCellParameters) (T1 T2 : real) :
  working_range (with_T p T1) -> working_range (with_T p T2) ->
  T1 + 1e-3 <= T2 -> P_H2 p * sqrt (P_O2 p) <= 20 ->
  exists (cd1 v1 p1 cd2 v2 p2 : list num) (l1 l2 : list (list num)),
    simulate_fuel_cell (with_T p T1) = Ret (cd1, v1, p1, l1) /\
    simulate_fuel_cell (with_T p T2) = Ret (cd2, v2, p2, l2) /\
    forall k, (k < 100)%nat ->
      nth k cd1 NaN = nth k cd2 NaN /\
      fin_lt (nth k v2 NaN) (nth k v1 NaN).
Proof.
  intros (Hc & [HT1 _] & [Hh1 _] & [Ho1 _] & [Ha1 _] & _ & [Hl1 _]) _ HT Hprod.
  cbn [with_T T P_H2 P_O2 alpha i_limit] in *.
  assert (Ha : 0 < alpha p) by lra.
  assert (Hh : 0 < P_H2 p) by lra.
  assert (Ho : 0 < P_O2 p) by lra.
  assert (Hl : 0.051 < i_limit p) by lra.
  assert (Ha' : alpha p <> 0) by lra.
  assert (Hslope : 8.314 / (2 * 96485) * ln (P_H2 p * sqrt (P_O2 p)) <= 0.85e-3).
  { assert (Hpos : 0 < P_H2 p * sqrt (P_O2 p)).
    { apply Rmult_lt_0_compat; [assumption | now apply sqrt_lt_R0]. }
    pose proof (ln_le_pred _ Hpos). lra. }
  assert (Hc1 : universal_constants (with_T p T1)) by exact Hc.
  assert (Hc2 : universal_constants (with_T p T2)) by exact Hc.
  destruct (simulate_fuel_cell_returns_curves (with_T p T1) Hc1 Ha')
    as (cd1 & v1 & pw1 & va1 & vo1 & vc1 & Hsim1).
  destruct (simulate_fuel_cell_returns_curves (with_T p T2) Hc2 Ha')
    as (cd2 & v2 & pw2 & va2 & vo2 & vc2 & Hsim2).
  exists cd1, v1, pw1, cd2, v2, pw2. do 2 eexists.
  split; [exact Hsim1 | split; [exact Hsim2 |]].
  intros k Hk.
  destruct (simulate_fuel_cell_closed (with_T p T1) _ _ _ _ _ _ k
              Hc1 Ha' Hh Ho Hl Hsim1 Hk) as (-> & _ & _ & _ & -> & _).
  destruct (simulate_fuel_cell_closed (with_T p T2) _ _ _ _ _ _ k
              Hc2 Ha' Hh Ho Hl Hsim2 Hk) as (-> & _ & _ & _ & -> & _).
  cbn [with_T i_limit]. split; [reflexivity |].
  unfold fin_lt.
  pose proof (sample_inside (i_limit p) k Hl Hk) as [Hx0 _].
  apply cell_voltage_temperature; try assumption; lra.
Qed.

Lemma simulate_fuel_cell_temperature_default :
  exists (cd1 v1 p1 cd2 v2 p2 : list num) (l1 l2 : list (list num)),
    simulate_fuel_cell (with_T (init 353 1.0 1.0) 300) = Ret (cd1, v1, p1, l1) /\
    simulate_fuel_cell (with_T (init 353 1.0 1.0) 360) = Ret (cd2, v2, p2, l2) /\
    forall k, (k < 100)%nat ->
      nth k cd1 NaN = nth k cd2 NaN /\
      fin_lt (nth k v2 NaN) (nth k v1 NaN).
Proof.
  apply (simulate_fuel_cell_temperature (init 353 1.0 1.0) 300 360).
  - repeat split; simpl; lra.
  - repeat split; simpl; lra.
  - lra.
  - simpl. replace (1.0 * sqrt 1.0) with 1.
    + lra.
    + replace 1.0 with 1 by lra. rewrite sqrt_1. lra.
Defined.

(** X15.  Whatever finite float arguments it was built from, a
    parameter set the constructor returns makes the sweep return, over
    the same grid of 100 samples from 0.001 to 1.75 inside (0, 1.8). *)
Theorem constructed_sweep_returns
  (args : list real) (kwargs : list (string * real)) (p : FuelCellParameters) :
  new_FuelCellParameters args kwargs = Ret p ->
  exists (xs : list real) (v_cell p_cell : list num) (losses : list (list num)),
    simulate_fuel_cell p = Ret (map Fin xs, v_cell, p_cell, losses) /\
    evenly_spaced_inside 1.8 xs /\
    nth 99 xs 0 = 1.75.
Proof.
  intros Hnew.
  destruct (new_FuelCellParameters_ret _ _ _ Hnew) as (t & h & o & ->).
  destruct (simulate_fuel_cell_grid (init t h o)) as (v & pw & ls & Hsim).
  - apply universal_constants_init.
  - simpl. lra.
  - cbn [init i_limit] in Hsim.
    exists (np_linspace 0.001 (1.8 - 0.05) 100), v, pw, ls.
    split; [exact Hsim | split].
    + apply sweep_grid_inside. lra.
    + rewrite sweep_grid_last. lra.
Qed.

Lemma constructed_sweep_returns_my_fc :
  exists (xs : list real) (v_cell p_cell : list num) (losses : list (list num)),
    simulate_fuel_cell my_fc = Ret (map Fin xs, v_cell, p_cell, losses) /\
    evenly_spaced_inside 1.8 xs /\
    nth 99 xs 0 = 1.75.
Proof.
  apply (constructed_sweep_returns []
           [("T_kelvin"%string, 353); ("P_H2_atm"%string, 3.0);
            ("P_O2_atm"%string, 3.0)] my_fc).
  reflexivity.
Defined.

(* ================================================================= *)
(** ** The reported operating point *)

Lemma np_ge_fin (x y : real) :
  np_ge (Fin x) (Fin y) = if Rle_dec y x then true else false.
Proof. reflexivity. Qed.

(** On finite entries the scan ends on the first least entry: either the
    running minimum stands, or an entry strictly below it wins. *)
Lemma argmin_from_fin (ys : list real) :
  forall (m : real) (mi idx : nat),
    (argmin_from (Fin m) mi idx (map Fin ys) = mi /\
     forall j, (j < List.length ys)%nat -> m <= nth j ys 0) \/
    (exists j, (j < List.length ys)%nat /\
       argmin_from (Fin m) mi idx (map Fin ys) = (idx + j)%nat /\
       nth j ys 0 < m /\
       (forall j', (j' < List.length ys)%nat -> nth j ys 0 <= nth j' ys 0) /\
       (forall j', (j' < j)%nat -> nth j ys 0 < nth j' ys 0)).
Proof.
  induction ys as [| y ys IH]; intros m mi idx.
  - left. split; [reflexivity | simpl; intros; lia].
  - cbn [map argmin_from is_nan]. rewrite np_ge_fin.
    destruct (Rle_dec m y) as [Hle | Hgt].
    + destruct (IH m mi (S idx)) as [[Hr Hall] | (j & Hj & Hr & Hlt & Hmin & Hfirst)].
      * left. split; [exact Hr |].
        intros [| j] Hj; simpl in *; [exact Hle | apply Hall; lia].
      * right. exists (S j). simpl.
        split; [lia | split; [rewrite Hr; lia | split; [exact Hlt | split]]].
        -- intros [| j'] Hj'; [lra | apply Hmin; lia].
        -- intros [| j'] Hj'; [lra | apply Hfirst; lia].
    + assert (Hym : y < m) by lra.
      destruct (IH y idx (S idx)) as [[Hr Hall] | (j & Hj & Hr & Hlt & Hmin & Hfirst)].
      * right. exists 0%nat. simpl.
        split; [lia | split; [rewrite Hr; lia | split; [exact Hym | split]]].
        -- intros [| j'] Hj'; [lra | apply Hall; lia].
        -- intros j' Hj'. lia.
      * right. exists (S j). simpl.
        split; [lia | split; [rewrite Hr; lia | split; [lra | split]]].
        -- intros [| j'] Hj'; [lra | apply Hmin; lia].
        -- intros [| j'] Hj'; [lra | apply Hfirst; lia].
Qed.

(** [argmin] of a non-empty array of finite numbers is the index of its
    first least entry. *)
Lemma np_argmin_fin (ys : list real) :
  ys <> [] ->
  exists r : nat,
    np_argmin (map Fin ys) = Some r /\
    (r < List.length ys)%nat /\
    (forall j, (j < List.length ys)%nat -> nth r ys 0 <= nth j ys 0) /\
    (forall j, (j < r)%nat -> nth r ys 0 < nth j ys 0).
Proof.
  destruct ys as [| y ys]; [congruence | intros _].
  cbn [map np_argmin].
  destruct (argmin_from_fin ys y 0 1)
    as [[Hr Hall] | (j & Hj & Hr & Hlt & Hmin & Hfirst)].
  - exists 0%nat. rewrite Hr. simpl.
    split; [reflexivity | split; [lia | split]].
    + intros [| j] Hj; [lra | apply Hall; lia].
    + intros j Hj. lia.
  - exists (S j). rewrite Hr. simpl.
    split; [reflexivity | split; [lia | split]].
    + intros [| j'] Hj'; [lra | apply Hmin; lia].
    + intros [| j'] Hj'; [lra | apply Hfirst; lia].
Qed.

Lemma np_argmin_empty : np_argmin [] = None.
Proof. reflexivity. Qed.

Lemma closest_index_fin (xs : list real) :
  closest_index (map Fin xs)
  = np_argmin (map Fin (map (fun x => Rabs (x - 1.0)) xs)).
Proof.
  unfold closest_index. rewrite !map_map. f_equal.
Qed.

(** A grid of step [s] that spans [t] has a point within [s / 2] of it. *)
Lemma grid_has_near (a s t : real) (n : nat) :
  0 < s -> a <= t -> t <= a + INR n * s ->
  exists k, (k <= n)%nat /\ Rabs (a + INR k * s - t) <= s / 2.
Proof.
  intros Hs Hat. induction n as [| n IH]; intros Htn.
  - exists 0%nat. split; [lia |]. simpl INR in *.
    apply Rabs_le. lra.
  - rewrite S_INR in Htn.
    destruct (Rle_lt_dec t (a + INR n * s)) as [Hin | Hout].
    + destruct (IH Hin) as (k & Hk & Hnear). exists k. split; [lia | exact Hnear].
    + destruct (Rle_lt_dec (t - (a + INR n * s)) (s / 2)) as [Hlow | Hhigh].
      * exists n. split; [lia |]. apply Rabs_le. lra.
      * exists (S n). split; [lia |]. rewrite S_INR. apply Rabs_le. lra.
Qed.

(** X16.  When the sweep spans 1.0 A/cm^2 ([i_limit >= 1.05]), the index
    the script reports at, [np.abs(i - 1.0).argmin()], is the first
    sample closest to 1.0, and that sample lies within half a grid step,
    [(i_limit - 0.051) / 198], of 1.0. *)
Theorem closest_index_nearest (p : FuelCellParameters)
  (cd v_cell p_cell : list num) (losses : list (list num)) :
  1.05 <= i_limit p ->
  simulate_fuel_cell p = Ret (cd, v_cell, p_cell, losses) ->
  exists (idx : nat) (x : real),
    closest_index cd = Some idx /\
    (idx < 100)%nat /\
    nth idx cd NaN = Fin x /\
    Rabs (x - 1.0) <= (i_limit p - 0.051) / 198 /\
    forall k, (k < 100)%nat ->
      exists y : real,
        nth k cd NaN = Fin y /\
        Rabs (x - 1.0) <= Rabs (y - 1.0) /\
        ((k < idx)%nat -> Rabs (x - 1.0) < Rabs (y - 1.0)).
Proof.
  intros Hl Hsim.
  destruct (simulate_fuel_cell_inv _ _ _ _ _ Hsim)
    as (E & va & vc & _ & Hcd & _).
  set (xs := np_linspace 0.001 (i_limit p - 0.05) 100) in *.
  assert (Hlen : List.length xs = 100%nat) by apply np_linspace_length.
  set (ds := map (fun x => Rabs (x - 1.0)) xs).
  assert (Hdlen : List.length ds = 100%nat) by (unfold ds; now rewrite length_map).
  assert (Hne : ds <> []) by (intros H; rewrite H in Hdlen; discriminate).
  destruct (np_argmin_fin ds Hne) as (idx & Hidx & Hlt & Hmin & Hfirst).
  assert (Hd : forall k, (k < 100)%nat -> nth k ds 0 = Rabs (nth k xs 0 - 1.0)).
  { intros k Hk. unfold ds.
    apply (map_nth_in (fun x => Rabs (x - 1.0)) xs 0 0 k). lia. }
  assert (Hx : forall k, (k < 100)%nat -> nth k cd NaN = Fin (nth k xs 0)).
  { intros k Hk. rewrite Hcd. apply (map_nth_in Fin xs 0 NaN k). lia. }
  exists idx, (nth idx xs 0).
  split; [rewrite Hcd, closest_index_fin; exact Hidx |].
  split; [lia |]. split; [apply Hx; lia |].
  split.
  - set (s := (i_limit p - 0.05 - 0.001) / 99).
    assert (Hs : 0 < s) by (unfold s; apply Rdiv_lt_0_compat; lra).
    assert (H99 : INR 99 = 99) by (rewrite INR_IZR_INZ; reflexivity).
    destruct (grid_has_near 0.001 s 1.0 99 Hs ltac:(lra)) as (k & Hk & Hnear).
    { rewrite H99. unfold s. lra. }
    assert (Hk' : (k < 100)%nat) by lia.
    rewrite <- Hd by lia.
    apply Rle_trans with (nth k ds 0); [apply Hmin; lia |].
    rewrite Hd by exact Hk'. unfold xs. rewrite sweep_grid_nth by exact Hk'.
    fold s. unfold s in *. lra.
  - intros k Hk. exists (nth k xs 0).
    split; [now apply Hx |].
    rewrite <- !Hd by lia.
    split; [apply Hmin; lia | intros Hki; now apply Hfirst].
Qed.

Lemma closest_index_nearest_my_fc :
  exists (cd v_cell p_cell : list num) (losses : list (list num))
         (idx : nat) (x : real),
    simulate_fuel_cell my_fc = Ret (cd, v_cell, p_cell, losses) /\
    closest_index cd = Some idx /\
    (idx < 100)%nat /\
    nth idx cd NaN = Fin x /\
    Rabs (x - 1.0) <= (i_limit my_fc - 0.051) / 198.
Proof.
  destruct (simulate_fuel_cell_grid my_fc) as (v & pw & ls & Hsim).
  - apply universal_constants_init.
  - simpl. lra.
  - destruct (closest_index_nearest my_fc _ _ _ _ ltac:(simpl; lra) Hsim)
      as (idx & x & Hidx & Hlt & Hx & Hnear & _).
    do 4 eexists. exists idx, x.
    split; [exact Hsim | repeat split; assumption].
Defined.

(* ================================================================= *)
(** ** A limit below the sweep's margin *)

Lemma sub_special_l (a b : num) :
  is_finite a = false -> is_finite (sub a b) = false.
Proof.
  unfold sub. destruct a, b; simpl; intros H; try discriminate; reflexivity.
Qed.

Lemma sub_special_r (a b : num) :
  is_finite b = false -> is_finite (sub a b) = false.
Proof.
  unfold sub. destruct a, b; simpl; intros H; try discriminate; reflexivity.
Qed.

Lemma mul_special_fin (a : num) (x : real) :
  is_finite a = false -> is_finite (mul a (Fin x)) = false.
Proof.
  destruct a; simpl; intros H; try discriminate; try reflexivity;
    match goal with |- context [sgn ?t] => destruct (sgn t) end; reflexivity.
Qed.

(** Below [-1e-6] the Tafel logarithm has a negative argument and the
    activation loss is a NaN, which the floor lets through. *)
Lemma calc_activation_loss_nan (p : FuelCellParameters) (i : real) :
  universal_constants p -> alpha p <> 0 -> i < - 1e-6 ->
  calc_activation_loss (Fin i) p = Ret NaN.
Proof.
  intros Hc Ha Hi. rewrite calc_activation_loss_returns by assumption.
  simpl add. rewrite div_fin by lra.
  rewrite log_neg; [reflexivity |].
  assert (0 < - ((i + 1e-6) / 1e-3)); [| lra].
  replace (- ((i + 1e-6) / 1e-3)) with ((- (i + 1e-6)) / 1e-3) by (field; lra).
  apply Rdiv_lt_0_compat; lra.
Qed.

(** X17.  A limiting current below the sweep's margin is not rejected:
    with [i_limit < 0.05 - 1e-6] the sweep still returns, its last sample
    [i_limit - 0.05] is negative, the activation loss there is a NaN, and
    so the last net voltage and the last power density are not finite. *)
Theorem simulate_fuel_cell_small_limit_nan (p : FuelCellParameters) :
  universal_constants p -> alpha p <> 0 -> i_limit p < 0.05 - 1e-6 ->
  exists (cd v_cell p_cell v_act v_ohmic v_conc : list num),
    simulate_fuel_cell p = Ret (cd, v_cell, p_cell, [v_act; v_ohmic; v_conc]) /\
    nth 99 cd NaN = Fin (i_limit p - 0.05) /\
    nth 99 v_act NaN = NaN /\
    is_finite (nth 99 v_cell NaN) = false /\
    is_finite (nth 99 p_cell NaN) = false.
Proof.
  intros Hc Ha Hl.
  destruct (simulate_fuel_cell_returns_curves p Hc Ha)
    as (cd & v & pw & va & vo & vc & Hsim).
  exists cd, v, pw, va, vo, vc. split; [exact Hsim |].
  destruct (simulate_fuel_cell_entries _ _ _ _ _ _ _ 99 Hsim ltac:(lia))
    as (E & _ & Hx & Hact & _ & _ & Hv & Hp).
  assert (Hlast : Closed.sample (i_limit p) 99 = i_limit p - 0.05).
  { unfold Closed.sample.
    replace (INR 99) with 99 by (rewrite INR_IZR_INZ; reflexivity). field. }
  rewrite Hlast in Hx.
  rewrite Hx, calc_activation_loss_nan in Hact by (assumption || lra).
  apply Ret_inj in Hact.
  assert (Hvnan : is_finite (nth 99 v NaN) = false).
  { rewrite Hv, <- Hact. do 2 apply sub_special_l. now apply sub_special_r. }
  split; [exact Hx | split; [now symmetry | split; [exact Hvnan |]]].
  rewrite Hp, Hx. now apply mul_special_fin.
Qed.

Lemma simulate_fuel_cell_small_limit_nan_example :
  exists (cd v_cell p_cell v_act v_ohmic v_conc : list num),
    simulate_fuel_cell (with_i_limit my_fc 0.01)
    = Ret (cd, v_cell, p_cell, [v_act; v_ohmic; v_conc]) /\
    nth 99 cd NaN = Fin (i_limit (with_i_limit my_fc 0.01) - 0.05) /\
    nth 99 v_act NaN = NaN /\
    is_finite (nth 99 v_cell NaN) = false /\
    is_finite (nth 99 p_cell NaN) = false.
Proof.
  apply (simulate_fuel_cell_small_limit_nan (with_i_limit my_fc 0.01)).
  - split; reflexivity.
  - simpl. lra.
  - simpl. lra.
Defined.
